(** * zim_to_dir: filtering and batching of Wikipedia articles

    A shallow embedding of [src/zim_to_dir.cpp] and the properties of its
    record filter, its batch writer and its exit behaviour.

    Conventions of the embedding:
    - [size_t] and [uint32_t] values are integers of [Z], every operation
      that can wrap is followed by [wrap64] or [wrap32];
    - a [std::string] is a [string] (one [ascii] per byte), a [zim::Blob]
      is a [list byte];
    - the global [std::map] is a [gmap string string];
    - [std::cout], [std::cerr], the directories created and the batch files
      written are fields of an explicit [World];
    - exceptions and [exit] are outcomes of a small state monad. *)

From Stdlib Require Import ZArith Lia List Ascii String Bool.
From Stdlib.Strings Require Import Byte.
From stdpp Require Import base tactics option list gmap strings.

Import ListNotations.
Local Open Scope Z_scope.

(** ** Machine integers *)

Definition wrap64 (z : Z) : Z := z mod 2 ^ 64.
Definition wrap32 (z : Z) : Z := z mod 2 ^ 32.

(** [size_t] subtraction and pre-increment. *)
Definition size_sub (a b : Z) : Z := wrap64 (a - b).
Definition size_incr (a : Z) : Z := wrap64 (a + 1).

(** ** Bytes *)

Definition byte_of_Z (z : Z) : byte :=
  match Byte.of_N (Z.to_N (z mod 256)) with
  | Some b => b
  | None => x00
  end.

Definition Z_of_byte (b : byte) : Z := Z.of_N (Byte.to_N b).

(** [htonl] followed by the write of the four bytes of the result as they
    lie in memory: whatever the byte order of the host, the bytes that reach
    the stream are the big-endian bytes of the 32-bit value. *)
Definition htonl_bytes (size : Z) : list byte :=
  [ byte_of_Z (Z.shiftr size 24);
    byte_of_Z (Z.shiftr size 16);
    byte_of_Z (Z.shiftr size 8);
    byte_of_Z size ].

(** The reader's side of the four bytes ([ntohl]). *)
Definition ntohl_bytes (b3 b2 b1 b0 : byte) : Z :=
  Z.lor (Z.shiftl (Z_of_byte b3) 24)
    (Z.lor (Z.shiftl (Z_of_byte b2) 16)
       (Z.lor (Z.shiftl (Z_of_byte b1) 8) (Z_of_byte b0))).

(** A [zim::Blob]: [size()] is the length of [data()]. *)
Definition Blob := list byte.
Definition blob_size (blob : Blob) : Z := Z.of_nat (List.length blob).

(** ** Frames

    What one call of [BatchWriter::write] sends to the sink: the length
    prefix (first [out_->write]) and the payload (second [out_->write]). *)
Record Frame := mkFrame {
  frame_prefix : list byte;
  frame_body : list byte
}.

Definition frame_of (blob : Blob) : Frame :=
  let size := htonl_bytes (wrap32 (blob_size blob)) in
  mkFrame size blob.

Definition frame_bytes (f : Frame) : list byte :=
  frame_prefix f ++ frame_body f.

Definition stream_bytes (fs : list Frame) : list byte :=
  concat (map frame_bytes fs).

(** The frame parser of a consumer of the batch files, following the file
    format of the specification: a 4-byte big-endian length, then that many
    bytes, repeated to the end of the stream.  [None] on a truncated frame. *)
Fixpoint parse_frames_fuel (fuel : nat) (bs : list byte) : option (list Blob) :=
  match fuel with
  | O => None
  | S fuel' =>
      match bs with
      | [] => Some []
      | b3 :: b2 :: b1 :: b0 :: rest =>
          let len := Z.to_nat (ntohl_bytes b3 b2 b1 b0) in
          if (len <=? List.length rest)%nat then
            match parse_frames_fuel fuel' (drop len rest) with
            | Some ps => Some (take len rest :: ps)
            | None => None
            end
          else None
      | _ => None
      end
  end.

Definition parse_frames (bs : list byte) : option (list Blob) :=
  parse_frames_fuel (S (List.length bs)) bs.

(** ** Strings *)

Local Open Scope string_scope.
Local Open Scope list_scope.
Local Open Scope Z_scope.

Definition string_size (s : string) : Z := Z.of_nat (String.length s).

Definition digit_char (d : Z) : ascii := ascii_of_nat (48 + Z.to_nat d).

(** [std::to_string] on a [size_t]: the decimal digits, most significant
    first, no sign and no leading zero.  A [size_t] has at most 20 digits. *)
Fixpoint to_string_fuel (fuel : nat) (n : Z) (acc : string) : string :=
  match fuel with
  | O => acc
  | S fuel' =>
      let acc' := String (digit_char (n mod 10)) acc in
      if n / 10 =? 0 then acc' else to_string_fuel fuel' (n / 10) acc'
  end.

Definition to_string (n : Z) : string := to_string_fuel 20 n "".

(** [count] copies of [c]. *)
Fixpoint string_rep (count : nat) (c : ascii) : string :=
  match count with
  | O => ""
  | S k => String c (string_rep k c)
  end.

(** [p] is a prefix of [s]. *)
Fixpoint starts_with (p s : string) : bool :=
  match p, s with
  | EmptyString, _ => true
  | String a p', String b s' => Ascii.eqb a b && starts_with p' s'
  | String _ _, EmptyString => false
  end.

(** [s.find(p)], searched from position [i] of the original string, of
    which [s] is the rest: the first position where [p] occurs, [None] for
    [std::string::npos]. *)
Fixpoint find_from (i : nat) (s p : string) : option nat :=
  if starts_with p s then Some i
  else match s with
       | EmptyString => None
       | String _ s' => find_from (S i) s' p
       end.

Definition find (s p : string) : option nat := find_from 0 s p.

Definition npos : option nat := None.

(** ** The platform

    [std::string::max_size()] is fixed by the C++ library the program is
    built with, not by this repository: it is a parameter.  All that is
    used of it is that it lies at least 20 below [2^64], as it does in
    libstdc++ ([2^62 - 1] or [2^63 - 1], by version). *)
Class Platform := mkPlatform {
  string_max_size : Z;
  string_max_size_bound : 0 <= string_max_size < 2 ^ 64 - 20
}.

(** ** Exceptions, exit and the state monad *)

Inductive exn_class :=
  | OptionException   (* cxxopts::OptionException *)
  | LengthError       (* std::length_error *)
  | RuntimeError.     (* any other class derived from std::exception *)

Record exception := mkExn {
  exn_kind : exn_class;
  what : string
}.

(** How a computation ends: it returns, it throws, it calls [exit], or it
    does what C++ leaves undefined (here: a call through a null [out_]). *)
Inductive Outcome (A : Type) :=
  | Ret (a : A)
  | Throw (e : exception)
  | Exit (status : Z)
  | Undefined.
Arguments Ret {A} a.
Arguments Throw {A} e.
Arguments Exit {A} status.
Arguments Undefined {A}.

Definition M (S A : Type) : Type := S -> Outcome A * S.

Definition ret {S A} (a : A) : M S A := fun s => (Ret a, s).

Definition bind {S A B} (m : M S A) (k : A -> M S B) : M S B :=
  fun s =>
    match m s with
    | (Ret a, s') => k a s'
    | (Throw e, s') => (Throw e, s')
    | (Exit c, s') => (Exit c, s')
    | (Undefined, s') => (Undefined, s')
    end.

Definition throw {S A} (e : exception) : M S A := fun s => (Throw e, s).
Definition exit {S A} (status : Z) : M S A := fun s => (Exit status, s).
Definition undefined {S A} : M S A := fun s => (Undefined, s).
Definition get {S} : M S S := fun s => (Ret s, s).
Definition modify {S} (f : S -> S) : M S unit := fun s => (Ret tt, f s).

(** [try { body } catch (const C& e) { handler }], where [catches] tells
    whether the class of the exception derives from [C]. *)
Definition try_catch {S A} (catches : exn_class -> bool)
    (body : M S A) (handler : exception -> M S A) : M S A :=
  fun s =>
    match body s with
    | (Throw e, s') =>
        if catches (exn_kind e) then handler e s' else (Throw e, s')
    | r => r
    end.

Declare Scope monad_scope.
Delimit Scope monad_scope with monad.
Notation "x <- m ;; k" := (bind m (fun x => k))
  (at level 100, m at next level, right associativity) : monad_scope.
Notation "m ;; k" := (bind m (fun _ => k))
  (at level 100, right associativity) : monad_scope.
Local Open Scope monad_scope.

Definition catches_OptionException (c : exn_class) : bool :=
  match c with OptionException => true | _ => false end.

(** Every class of the model derives from [std::exception]. *)
Definition catches_std_exception (c : exn_class) : bool := true.

(** ** The world of the process *)

(** A batch file: its path and the frames sent to its sink.  The codec of
    [zstr::ofstream] is transparent: the decompressed contents of the file
    are the bytes written to the sink. *)
Record File := mkFile {
  file_path : string;
  file_frames : list Frame
}.

Definition file_bytes (f : File) : list byte := stream_bytes (file_frames f).

Record World := mkWorld {
  cout : list string;               (* lines of std::cout, oldest first *)
  cerr : list string;               (* lines of std::cerr, oldest first *)
  disambig : gmap string string;    (* the global table *)
  dirs : list string;               (* paths create_directory returned on *)
  files : list File                 (* sinks closed so far, oldest first *)
}.

(** The table as its initialiser builds it (lines 16-18). *)
Definition disambig_init : gmap string string :=
  <["hu" := "(egyértelműsítő lap)"]> (<["en" := "(disambiguation)"]> ∅).

Definition World_init : World := mkWorld [] [] disambig_init [] [].

(** One record of the archive, as the iterator of [zim::File] shows it. *)
Record Article := mkArticle {
  getTitle : string;
  getNamespace : ascii;
  isRedirect : bool;
  isDeleted : bool;
  getData : Blob
}.

(** What lies outside the program and can fail: the archive reader, the
    file system and the compressed sink.  [zim_File path] is the result of
    opening the archive: an exception, or the steps of its iteration, each
    of which yields an article or throws. *)
Record Env := mkEnv {
  options_help : string;
  zim_File : string -> exception + list (exception + Article);
  create_directory : string -> option exception;
  zstr_ofstream : string -> option exception
}.

(** What [options->parse(argc, argv)] returns for the options this program
    declares (lines 33-44). *)
Record ParseResult := mkParseResult {
  count_help : nat;
  input_file : option string;
  output_dir : option string;
  language : string;
  documents : Z;
  zeroes : Z
}.

(** [args.count(name)] is only ever tested against zero. *)
Definition count_of {A} (o : option A) : nat :=
  match o with Some _ => 1%nat | None => 0%nat end.

(** ** BatchWriter *)

Record BatchWriter := mkBatchWriter {
  output_dir_ : string;
  documents_ : Z;
  zeroes_ : Z;
  curr_num_ : Z;
  out_ : option File;   (* [None] for the null pointer *)
  written_ : Z
}.

(** The constructor (lines 82-85). *)
Definition BatchWriter_new (output_dir : string) (documents zeroes : Z)
  : BatchWriter :=
  mkBatchWriter output_dir documents zeroes 0 None documents.

(** The state of [main] once [bw] exists. *)
Record Proc := mkProc {
  bw : BatchWriter;
  world : World
}.

Definition set_curr_num (n : Z) (s : Proc) : Proc :=
  let b := bw s in
  mkProc (mkBatchWriter (output_dir_ b) (documents_ b) (zeroes_ b) n
            (out_ b) (written_ b)) (world s).

Definition set_written (n : Z) (s : Proc) : Proc :=
  let b := bw s in
  mkProc (mkBatchWriter (output_dir_ b) (documents_ b) (zeroes_ b)
            (curr_num_ b) (out_ b) n) (world s).

Definition set_out (o : option File) (s : Proc) : Proc :=
  let b := bw s in
  mkProc (mkBatchWriter (output_dir_ b) (documents_ b) (zeroes_ b)
            (curr_num_ b) o (written_ b)) (world s).

Definition close_file (o : option File) (w : World) : World :=
  mkWorld (cout w) (cerr w) (disambig w) (dirs w)
    (files w ++ option_list o).

(** [out_.reset(p)]: the sink held so far, if any, is closed. *)
Definition out_reset (o : option File) (s : Proc) : Proc :=
  set_out o (mkProc (bw s) (close_file (out_ (bw s)) (world s))).

(** The last byte of a string is the separator. *)
Fixpoint ends_with_slash (s : string) : bool :=
  match s with
  | EmptyString => false
  | String c EmptyString => Ascii.eqb c "/"
  | String _ s' => ends_with_slash s'
  end.

(** [fs::path::operator/] with a relative right-hand side: a separator
    is put between the two unless the left-hand side has no file name
    (it is empty or ends with the separator). *)
Definition dir_prefix (dir : string) : string :=
  match dir with
  | EmptyString => ""
  | _ => if ends_with_slash dir then dir else dir +:+ "/"
  end.

Definition path_join (dir name : string) : string := dir_prefix dir +:+ name.

Section Platform.
Context `{Platform}.

(** [std::string(count, c)]: [std::length_error] when [count] is more
    than [max_size()]; the text of [what()] is that of libstdc++. *)
Definition string_fill {S} (count : Z) (c : ascii) : M S string :=
  if string_max_size <? count
  then throw (mkExn LengthError "basic_string::_M_create")
  else ret (string_rep (Z.to_nat count) c).

(** [new zstr::ofstream(path, ...)]. *)
Definition ofstream_new (E : Env) (path : string) : M Proc File :=
  match zstr_ofstream E path with
  | Some e => throw e
  | None => ret (mkFile path [])
  end.

(** [out_->write(...)] twice: the prefix, then the payload. *)
Definition out_write (fr : Frame) : M Proc unit :=
  s <- get;;
  match out_ (bw s) with
  | None => undefined
  | Some f => modify (set_out (Some (mkFile (file_path f) (file_frames f ++ [fr]))))
  end.

(** [BatchWriter::write] (lines 92-103). *)
Definition write (E : Env) (blob : Blob) : M Proc unit :=
  s <- get;;
  (if written_ (bw s) =? documents_ (bw s) then
     modify (set_curr_num (size_incr (curr_num_ (bw s))));;
     s <- get;;
     let num := to_string (curr_num_ (bw s)) in
     pad <- string_fill (size_sub (zeroes_ (bw s)) (string_size num)) "0";;
     let num := pad +:+ num +:+ ".htmls.gz" in
     f <- ofstream_new E (path_join (output_dir_ (bw s)) num);;
     modify (out_reset (Some f));;
     modify (set_written 0)
   else ret tt);;
  out_write (frame_of blob);;
  s <- get;;
  modify (set_written (size_incr (written_ (bw s)))).

(** The calls of [write] for a sequence of payloads; an exception ends
    the sequence, as it ends the loop of [main]. *)
Fixpoint write_all (E : Env) (blobs : list Blob) : M Proc unit :=
  match blobs with
  | [] => ret tt
  | blob :: rest => write E blob;; write_all E rest
  end.

End Platform.

(** The destructor of [bw]: the sink still open is closed. *)
Definition BatchWriter_delete (s : Proc) : World :=
  close_file (out_ (bw s)) (world s).

(** ** ArgumentParser::parse (lines 52-74) *)

Definition set_cout (l : list string) (w : World) : World :=
  mkWorld l (cerr w) (disambig w) (dirs w) (files w).
Definition set_cerr (l : list string) (w : World) : World :=
  mkWorld (cout w) l (disambig w) (dirs w) (files w).
Definition set_disambig (m : gmap string string) (w : World) : World :=
  mkWorld (cout w) (cerr w) m (dirs w) (files w).
Definition set_dirs (l : list string) (w : World) : World :=
  mkWorld (cout w) (cerr w) (disambig w) l (files w).

(** [std::cout << line << std::endl] and [std::cerr << line << std::endl]. *)
Definition cout_endl (line : string) : M World unit :=
  modify (fun w => set_cout (cout w ++ [line]) w).
Definition cerr_endl (line : string) : M World unit :=
  modify (fun w => set_cerr (cerr w ++ [line]) w).

(** [options->parse(argc, argv)]: its result is given. *)
Definition options_parse (cl : exception + ParseResult) : M World ParseResult :=
  match cl with
  | inl e => throw e
  | inr args => ret args
  end.

(** [disambig.count(key)]. *)
Definition disambig_count (key : string) : M World nat :=
  w <- get;;
  ret (count_of (disambig w !! key)).

Definition parse (E : Env) (cl : exception + ParseResult)
  : M World ParseResult :=
  try_catch catches_OptionException
    (args <- options_parse cl;;
     (if (0 <? count_help args)%nat then
        cout_endl (options_help E);;
        exit 0
      else ret tt);;
     (if (count_of (input_file args) =? 0)%nat
         || (count_of (output_dir args) =? 0)%nat then
        cout_endl "Both -i and -o must be specified.";;
        exit 1
      else ret tt);;
     let language := language args in
     n <- disambig_count language;;
     (if (n =? 0)%nat then
        cout_endl ("Language '" +:+ language +:+ "' is no supported. "
                   +:+ "Choose between 'en' and 'hu'.")
      else ret tt);;
     ret args)
    (fun e =>
       cerr_endl ("Error parsing options: " +:+ what e);;
       exit 1).

(** ** main (lines 119-157) *)

(** Runs a computation on the world inside the state of [main]. *)
Definition in_world {A} (m : M World A) : M Proc A :=
  fun s =>
    let '(r, w) := m (world s) in
    (r, mkProc (bw s) w).

(** [args[name].as<std::string>()] throws when the option has no value. *)
Definition as_string {S} (name : string) (o : option string) : M S string :=
  match o with
  | Some v => ret v
  | None => throw (mkExn RuntimeError ("Option " +:+ name +:+ " has no value"))
  end.

(** [zim::File f(path)]. *)
Definition zim_File_new (E : Env) (path : string)
  : M Proc (list (exception + Article)) :=
  match zim_File E path with
  | inl e => throw e
  | inr f => ret f
  end.

(** [fs::create_directory(path)]. *)
Definition fs_create_directory (E : Env) (path : string) : M Proc unit :=
  match create_directory E path with
  | Some e => throw e
  | None => in_world (modify (fun w => set_dirs (dirs w ++ [path]) w))
  end.

(** [disambig[key]]: [std::map::operator[]] inserts an empty string under
    a key that is absent, and returns the string under the key. *)
Definition disambig_index (key : string) : M World string :=
  w <- get;;
  match disambig w !! key with
  | Some v => ret v
  | None => modify (set_disambig (<[key := ""]> (disambig w)));; ret ""
  end.

Section Platform.
Context `{Platform}.

(** The body of the loop over the archive (lines 132-151), for the
    article [it]; the result is the new value of [doc_no]. *)
Definition loop_body (E : Env) (pattern : string) (it : Article)
    (doc_no : Z) : M Proc Z :=
  let title := getTitle it in
  if negb (Ascii.eqb (getNamespace it) "A") then
    in_world (cerr_endl ("Dropping article " +:+ title
                         +:+ " not in namespace A..."));;
    ret doc_no
  else if isRedirect it then
    in_world (cerr_endl ("Dropping redirect article " +:+ title +:+ "..."));;
    ret doc_no
  else if isDeleted it then
    in_world (cerr_endl ("Dropping deleted article " +:+ title +:+ "..."));;
    ret doc_no
  else if negb (bool_decide (find (getTitle it) pattern = npos)) then
    in_world (cerr_endl ("Dropping disambiguation article " +:+ title
                         +:+ "..."));;
    ret doc_no
  else
    let doc_no := size_incr doc_no in
    (if doc_no mod 1000 =? 0 then
       in_world (cerr_endl ("At the " +:+ to_string doc_no
                            +:+ "th document."))
     else ret tt);;
    in_world (cerr_endl ("Writing articule " +:+ title +:+ "..."));;
    write E (getData it);;
    ret doc_no.

(** The loop: each step of the iteration yields an article or throws. *)
Fixpoint loop (E : Env) (pattern : string)
    (f : list (exception + Article)) (doc_no : Z) : M Proc unit :=
  match f with
  | [] => ret tt
  | inl e :: _ => throw e
  | inr it :: rest =>
      doc_no' <- loop_body E pattern it doc_no;;
      loop E pattern rest doc_no'
  end.

(** The block under [try] (lines 126-152). *)
Definition try_block (E : Env) (args : ParseResult) : M Proc unit :=
  input <- as_string "input-file" (input_file args);;
  f <- zim_File_new E input;;
  dir <- as_string "output-dir" (output_dir args);;
  fs_create_directory E dir;;
  let doc_no := 0 in
  pattern <- in_world (disambig_index (language args));;
  loop E pattern f doc_no.

(** [main], from the result of cxxopts on the command line.  The outcome
    is that of the process: [Ret c] when [main] returns [c] (the end of
    [main] is reached: 0), [Exit c] after [exit(c)], [Throw e] when an
    exception leaves [main].  On return the destructor of [bw] runs. *)
Definition main (E : Env) (cl : exception + ParseResult) : M World Z :=
  args <- parse E cl;;
  dir <- as_string "output-dir" (output_dir args);;
  fun w =>
    let s := mkProc (BatchWriter_new dir (documents args) (zeroes args)) w in
    let '(r, s') :=
      try_catch catches_std_exception
        (try_block E args)
        (fun e => in_world (cerr_endl (what e))) s in
    match r with
    | Ret _ => (Ret 0, BatchWriter_delete s')
    | Throw e => (Throw e, world s')
    | Exit c => (Exit c, world s')
    | Undefined => (Undefined, world s')
    end.

End Platform.

(** ** The record filter as the specification words it (section 4.1) *)

Inductive Decision :=
  | Admit
  | DropNotArticleNamespace
  | DropRedirect
  | DropDeleted
  | DropDisambiguation.

(** [title] contains [pattern] as a substring. *)
Definition contains (title pattern : string) : Prop :=
  exists pre post, title = pre +:+ pattern +:+ post.

(** The decision of the code: the conditions of the loop body (lines 133,
    136, 139 and 142) in their order, without the effects. *)
Definition classify (it : Article) (pattern : string) : Decision :=
  if negb (Ascii.eqb (getNamespace it) "A") then DropNotArticleNamespace
  else if isRedirect it then DropRedirect
  else if isDeleted it then DropDeleted
  else if negb (bool_decide (find (getTitle it) pattern = npos))
  then DropDisambiguation
  else Admit.

(** The five rules: each one applies only when the ones before it do not. *)
Inductive Classifies (r : Article) (pattern : string) : Decision -> Prop :=
  | rule1 :
      getNamespace r <> "A"%char ->
      Classifies r pattern DropNotArticleNamespace
  | rule2 :
      getNamespace r = "A"%char -> isRedirect r = true ->
      Classifies r pattern DropRedirect
  | rule3 :
      getNamespace r = "A"%char -> isRedirect r = false ->
      isDeleted r = true ->
      Classifies r pattern DropDeleted
  | rule4 :
      getNamespace r = "A"%char -> isRedirect r = false ->
      isDeleted r = false -> contains (getTitle r) pattern ->
      Classifies r pattern DropDisambiguation
  | rule5 :
      getNamespace r = "A"%char -> isRedirect r = false ->
      isDeleted r = false -> ~ contains (getTitle r) pattern ->
      Classifies r pattern Admit.

(** What the loop does with an article once the decision is taken: the
    line it reports and, for [Admit], the count and the write. *)
Section Platform.
Context `{Platform}.

Definition dispose (E : Env) (d : Decision) (it : Article) (doc_no : Z)
  : M Proc Z :=
  let title := getTitle it in
  match d with
  | DropNotArticleNamespace =>
      in_world (cerr_endl ("Dropping article " +:+ title
                           +:+ " not in namespace A..."));;
      ret doc_no
  | DropRedirect =>
      in_world (cerr_endl ("Dropping redirect article " +:+ title +:+ "..."));;
      ret doc_no
  | DropDeleted =>
      in_world (cerr_endl ("Dropping deleted article " +:+ title +:+ "..."));;
      ret doc_no
  | DropDisambiguation =>
      in_world (cerr_endl ("Dropping disambiguation article " +:+ title
                           +:+ "..."));;
      ret doc_no
  | Admit =>
      let doc_no := size_incr doc_no in
      (if doc_no mod 1000 =? 0 then
         in_world (cerr_endl ("At the " +:+ to_string doc_no
                              +:+ "th document."))
       else ret tt);;
      in_world (cerr_endl ("Writing articule " +:+ title +:+ "..."));;
      write E (getData it);;
      ret doc_no
  end.

End Platform.

(** ** Vocabulary of the statements *)

(** The byte length of a payload is representable in 32 bits. *)
Definition fits32 (blob : Blob) : Prop := blob_size blob < 2 ^ 32.

(** The name line 95 builds for the file of index [idx], when the padding
    can be built. *)
Definition file_name (zeroes idx : Z) : string :=
  string_rep (Z.to_nat (size_sub zeroes (string_size (to_string idx)))) "0"
  +:+ to_string idx +:+ ".htmls.gz".

(** The batch files of a run: those closed, then the one still open. *)
Definition produced (s : Proc) : list File := files (BatchWriter_delete s).

(** The state after a write that opens the file [path]. *)
Definition rotated (blob : Blob) (s : Proc) (path : string) : Proc :=
  mkProc (mkBatchWriter (output_dir_ (bw s)) (documents_ (bw s))
            (zeroes_ (bw s)) (size_incr (curr_num_ (bw s)))
            (Some (mkFile path [frame_of blob])) (size_incr 0))
         (close_file (out_ (bw s)) (world s)).

(** The state after a write into the open file [f]. *)
Definition appended (blob : Blob) (s : Proc) (f : File) : Proc :=
  mkProc (mkBatchWriter (output_dir_ (bw s)) (documents_ (bw s))
            (zeroes_ (bw s)) (curr_num_ (bw s))
            (Some (mkFile (file_path f) (file_frames f ++ [frame_of blob])))
            (size_incr (written_ (bw s))))
         (world s).

(** The number of frames of a file, as a [size_t]. *)
Definition frame_count (f : File) : Z := Z.of_nat (List.length (file_frames f)).

(** The invariant of the writer on the files it made since [base]: the
    closed ones are full, the open one holds [written_] frames, at least
    one and at most [documents_]; without an open file nothing was made and
    the next write rotates. *)
Definition capacity_inv (base : list File) (s : Proc) : Prop :=
  exists closed,
    files (world s) = base ++ closed /\
    Forall (fun f => frame_count f = documents_ (bw s)) closed /\
    match out_ (bw s) with
    | None => closed = [] /\ written_ (bw s) = documents_ (bw s)
    | Some f =>
        frame_count f = written_ (bw s) /\
        1 <= written_ (bw s) <= documents_ (bw s)
    end.

(** The frames of the files made since [base] are those of [done], in
    order. *)
Definition frames_inv (base : list File) (done : list Blob) (s : Proc)
  : Prop :=
  exists closed,
    files (world s) = base ++ closed /\
    concat (map file_frames (closed ++ option_list (out_ (bw s))))
    = map frame_of done.

(** The files made since [base] are numbered from 1, and [curr_num_] is
    the number of the last one. *)
Definition names_inv (base : list File) (s : Proc) : Prop :=
  exists closed,
    files (world s) = base ++ closed /\
    let made := closed ++ option_list (out_ (bw s)) in
    curr_num_ (bw s) = wrap64 (Z.of_nat (List.length made)) /\
    map file_path made
    = map (fun i => path_join (output_dir_ (bw s))
                      (file_name (zeroes_ (bw s)) (wrap64 (Z.of_nat i))))
          (seq 1 (List.length made)).

(** A null [out_] is only met by a write that rotates first. *)
Definition out_inv (s : Proc) : Prop :=
  out_ (bw s) = None -> written_ (bw s) = documents_ (bw s).

Section Platform.
Context `{Platform}.

(** The four ways a call of [write] can go, as a step relation on the
    state. *)
Inductive write_step (blob : Blob) (s : Proc) : Outcome unit -> Proc -> Prop :=
  | step_rotate path :
      written_ (bw s) = documents_ (bw s) ->
      size_sub (zeroes_ (bw s))
        (string_size (to_string (size_incr (curr_num_ (bw s)))))
      <= string_max_size ->
      path = path_join (output_dir_ (bw s))
               (file_name (zeroes_ (bw s)) (size_incr (curr_num_ (bw s)))) ->
      write_step blob s (Ret tt) (rotated blob s path)
  | step_throw e :
      written_ (bw s) = documents_ (bw s) ->
      write_step blob s (Throw e)
        (set_curr_num (size_incr (curr_num_ (bw s))) s)
  | step_append f :
      written_ (bw s) <> documents_ (bw s) ->
      out_ (bw s) = Some f ->
      write_step blob s (Ret tt) (appended blob s f)
  | step_undefined :
      written_ (bw s) <> documents_ (bw s) ->
      out_ (bw s) = None ->
      write_step blob s Undefined s.

End Platform.

(** The indices of the files made since [base] fit the width of the
    names. *)
Definition widths_inv (base : list File) (s : Proc) : Prop :=
  exists closed,
    files (world s) = base ++ closed /\
    let made := closed ++ option_list (out_ (bw s)) in
    curr_num_ (bw s) = wrap64 (Z.of_nat (List.length made)) /\
    forall i : nat, (1 <= i <= List.length made)%nat ->
      string_size (to_string (wrap64 (Z.of_nat i))) <= zeroes_ (bw s).

(** The value of a byte read as a decimal digit, and of a string read as
    a decimal number. *)
Definition digit_value (c : ascii) : Z := Z.of_nat (nat_of_ascii c) - 48.

Fixpoint decimal_value (s : string) : Z :=
  match s with
  | EmptyString => 0
  | String c s' =>
      digit_value c * 10 ^ Z.of_nat (String.length s') + decimal_value s'
  end.

(** The computation returns or throws: it neither exits nor runs into
    undefined behaviour. *)
Definition completes {A} (r : Outcome A) : Prop :=
  match r with
  | Ret _ | Throw _ => True
  | Exit _ | Undefined => False
  end.

(** The state after the handler of [main] has reported [e]. *)
Definition reported (e : exception) (s : Proc) : Proc :=
  mkProc (bw s) (set_cerr (cerr (world s) ++ [what e]) (world s)).

(** A platform to run the examples on: libstdc++ on a 64-bit machine. *)
Definition libstdcxx : Platform.
Proof. refine (mkPlatform (2 ^ 62 - 1) _). lia. Defined.

(** ** Inputs of the examples *)

(** An environment where nothing fails and the archive has the given
    steps. *)
Definition Env_ok (f : list (exception + Article)) : Env :=
  mkEnv "usage" (fun _ => inr f) (fun _ => None) (fun _ => None).

(** An environment where the archive cannot be opened. *)
Definition Env_no_archive : Env :=
  mkEnv "usage"
    (fun _ => inl (mkExn RuntimeError "error reading zim-file header"))
    (fun _ => None) (fun _ => None).

(** The command line [-i wiki.zim -o out -l language -d documents -Z zeroes]. *)
Definition args_of (language : string) (documents zeroes : Z) : ParseResult :=
  mkParseResult 0 (Some "wiki.zim") (Some "out") language documents zeroes.

(** The command line [-h]. *)
Definition args_help : ParseResult := mkParseResult 1 None None "hu" 2500 4.

Definition budapest : Article :=
  mkArticle "Budapest" "A" false false [x01].

(** Ten payloads of one byte each, and ten articles that carry them, all
    of which pass the filter for "en". *)
Definition ten_blobs : list Blob :=
  [[x01]; [x02]; [x03]; [x04]; [x05]; [x06]; [x07]; [x08]; [x09]; [x0a]].

Definition ten_articles : list (exception + Article) :=
  map (fun blob => inr (mkArticle "Page" "A" false false blob)) ten_blobs.

(** ** The rest of the program *)

(** The constructor of [ArgumentParser] (lines 23-50): the options are
    declared to cxxopts, whose answer is given ([Some e] when it throws). *)
Definition ArgumentParser_new (declared : option exception) : M World unit :=
  try_catch catches_OptionException
    (match declared with
     | Some e => throw e
     | None => ret tt
     end)
    (fun e =>
       cerr_endl ("Error parsing options: " +:+ what e);;
       exit 1).

Section Platform.
Context `{Platform}.

(** The process: line 120, then the rest of [main]. *)
Definition process (E : Env) (declared : option exception)
    (cl : exception + ParseResult) : M World Z :=
  ArgumentParser_new declared;;
  main E cl.

End Platform.

(** The exception, if any, is a [cxxopts::OptionException]. *)
Definition option_exception_only {A} (r : exception + A) : Prop :=
  match r with
  | inl e => exn_kind e = OptionException
  | inr _ => True
  end.

(** The payloads of the articles that the filter admits, in their order. *)
Definition admits (pattern : string) (it : Article) : bool :=
  match classify it pattern with
  | Admit => true
  | _ => false
  end.

Definition admitted (pattern : string) (arts : list Article) : list Blob :=
  map getData (List.filter (admits pattern) arts).

(** The outcome without its value. *)
Definition void {A} (r : Outcome A) : Outcome unit :=
  match r with
  | Ret _ => Ret tt
  | Throw e => Throw e
  | Exit c => Exit c
  | Undefined => Undefined
  end.

(** Two states with the same writer and the same batch files. *)
Definition same_output (s1 s2 : Proc) : Prop :=
  bw s1 = bw s2 /\ files (world s1) = files (world s2).

(** A string of decimal digits. *)
Definition is_digit (c : ascii) : Prop := 0 <= digit_value c < 10.

Fixpoint all_digits (s : string) : Prop :=
  match s with
  | EmptyString => True
  | String c s' => is_digit c /\ all_digits s'
  end.

(** * Properties *)

(** ** Bytes and frames *)

Lemma Z_of_byte_of_Z z : Z_of_byte (byte_of_Z z) = z mod 2 ^ 8.
Proof.
  unfold Z_of_byte, byte_of_Z. change (2 ^ 8) with 256.
  assert (Hr : 0 <= z mod 256 < 256) by (apply Z.mod_pos_bound; lia).
  destruct (Byte.of_N (Z.to_N (z mod 256))) as [b|] eqn:Hb.
  - apply Byte.to_of_N in Hb. rewrite Hb. lia.
  - apply Byte.of_N_None_iff in Hb. lia.
Qed.

Ltac bits_step :=
  match goal with
  | |- context [Z.testbit (Z.lor _ _) _] => rewrite Z.lor_spec
  | |- context [Z.testbit (Z.shiftl _ _) _] => rewrite Z.shiftl_spec by lia
  | |- context [Z.testbit (Z.shiftr _ _) _] => rewrite Z.shiftr_spec by lia
  | |- context [Z.testbit (_ mod 2 ^ 8) ?j] =>
      first [ rewrite (Z.testbit_neg_r _ j) by lia
            | rewrite Z.mod_pow2_bits_low by lia
            | rewrite Z.mod_pow2_bits_high by lia ]
  end.

Lemma ntohl_htonl n : 0 <= n < 2 ^ 32 ->
  ntohl_bytes (byte_of_Z (Z.shiftr n 24)) (byte_of_Z (Z.shiftr n 16))
    (byte_of_Z (Z.shiftr n 8)) (byte_of_Z n) = n.
Proof.
  intros Hn. unfold ntohl_bytes. rewrite !Z_of_byte_of_Z.
  apply Z.bits_inj'. intros i Hi.
  assert (Hhigh : 32 <= i -> Z.testbit n i = false).
  { intros. destruct (Z.eq_dec n 0) as [->|]; [apply Z.bits_0|].
    apply Z.bits_above_log2; [lia|].
    assert (Z.log2 n < 32) by (apply Z.log2_lt_pow2; lia). lia. }
  destruct (Z_lt_dec i 8); [|destruct (Z_lt_dec i 16);
    [|destruct (Z_lt_dec i 24); [|destruct (Z_lt_dec i 32)]]];
    repeat bits_step; rewrite ?orb_false_r, ?orb_false_l;
    try (f_equal; lia).
  rewrite Hhigh by lia. reflexivity.
Qed.

Lemma stream_bytes_cons f fs :
  stream_bytes (f :: fs) = frame_prefix f ++ frame_body f ++ stream_bytes fs.
Proof. unfold stream_bytes, frame_bytes. cbn. now rewrite <- app_assoc. Qed.

Lemma stream_bytes_app fs1 fs2 :
  stream_bytes (fs1 ++ fs2) = stream_bytes fs1 ++ stream_bytes fs2.
Proof. unfold stream_bytes. now rewrite map_app, concat_app. Qed.

Lemma parse_frames_fuel_frames (ps : list Blob) :
  Forall fits32 ps ->
  forall fuel,
    (List.length (stream_bytes (map frame_of ps)) < fuel)%nat ->
    parse_frames_fuel fuel (stream_bytes (map frame_of ps)) = Some ps.
Proof.
  induction 1 as [|p ps Hp Hps IH]; intros fuel Hfuel.
  - destruct fuel; [lia|reflexivity].
  - destruct fuel as [|fuel]; [lia|].
    cbn [map] in *. rewrite stream_bytes_cons in *.
    set (rest := stream_bytes (map frame_of ps)) in *.
    cbn [frame_of frame_prefix frame_body htonl_bytes app] in *.
    cbn [parse_frames_fuel].
    assert (Hw : wrap32 (blob_size p) = blob_size p).
    { unfold wrap32, fits32, blob_size in *. apply Z.mod_small. lia. }
    rewrite Hw, ntohl_htonl by (unfold fits32, blob_size in *; lia).
    unfold blob_size. rewrite Nat2Z.id.
    rewrite length_app.
    destruct (Nat.leb_spec (List.length p) (List.length p + List.length rest)); [|lia].
    rewrite drop_app_length, take_app_length.
    rewrite IH; [reflexivity|].
    cbn [List.length] in Hfuel. rewrite length_app in Hfuel. lia.
Qed.

Lemma parse_frames_frames (ps : list Blob) :
  Forall fits32 ps ->
  parse_frames (stream_bytes (map frame_of ps)) = Some ps.
Proof.
  intros. apply parse_frames_fuel_frames; [assumption|]. unfold parse_frames. lia.
Qed.

(** ** The batch writer *)

Section Writer.
Context `{Platform}.

Lemma write_unfold E blob s :
  write E blob s =
  if written_ (bw s) =? documents_ (bw s) then
    let idx := size_incr (curr_num_ (bw s)) in
    let num := to_string idx in
    if string_max_size <? size_sub (zeroes_ (bw s)) (string_size num) then
      (Throw (mkExn LengthError "basic_string::_M_create"), set_curr_num idx s)
    else
      let path := path_join (output_dir_ (bw s)) (file_name (zeroes_ (bw s)) idx) in
      match zstr_ofstream E path with
      | Some e => (Throw e, set_curr_num idx s)
      | None => (Ret tt, rotated blob s path)
      end
  else
    match out_ (bw s) with
    | None => (Undefined, s)
    | Some f => (Ret tt, appended blob s f)
    end.
Proof.
  destruct s as [[dir docs zs cur out wr] w].
  unfold write, bind, get, string_fill, ofstream_new, out_write, file_name.
  cbn.
  destruct (wr =? docs); cbn.
  - destruct (string_max_size <? _); cbn; [reflexivity|].
    destruct (zstr_ofstream E _); reflexivity.
  - destruct out; reflexivity.
Qed.

Lemma write_cases E blob s r s' :
  write E blob s = (r, s') -> write_step blob s r s'.
Proof.
  rewrite write_unfold.
  destruct (Z.eqb_spec (written_ (bw s)) (documents_ (bw s))) as [Heq|Hne];
    cbn zeta.
  - destruct (Z.ltb_spec string_max_size
                (size_sub (zeroes_ (bw s))
                   (string_size (to_string (size_incr (curr_num_ (bw s))))))).
    + intros [= <- <-]. now constructor.
    + destruct (zstr_ofstream E _); intros [= <- <-]; now constructor.
  - destruct (out_ (bw s)) eqn:Hout; intros [= <- <-]; now constructor.
Qed.

Lemma write_all_cons E blob rest s :
  write_all E (blob :: rest) s =
  match write E blob s with
  | (Ret _, s') => write_all E rest s'
  | (Throw e, s') => (Throw e, s')
  | (Exit c, s') => (Exit c, s')
  | (Undefined, s') => (Undefined, s')
  end.
Proof. reflexivity. Qed.

Lemma size_incr_small n : 0 <= n < 2 ^ 64 - 1 -> size_incr n = n + 1.
Proof. intros. unfold size_incr, wrap64. apply Z.mod_small. lia. Qed.

(** *** The capacity invariant *)

Lemma capacity_inv_new base dir docs zs w :
  files w = base -> capacity_inv base (mkProc (BatchWriter_new dir docs zs) w).
Proof.
  intros <-. exists []. cbn. rewrite app_nil_r. auto.
Qed.

Lemma capacity_inv_write E base blob s r s' :
  0 < documents_ (bw s) < 2 ^ 64 ->
  capacity_inv base s ->
  write E blob s = (r, s') ->
  capacity_inv base s' /\ documents_ (bw s') = documents_ (bw s).
Proof.
  intros Hdocs (closed & Hfiles & Hfull & Hout) Hw.
  apply write_cases in Hw.
  destruct Hw as [path Heq Hfit ->|e Heq|f Hne Hf|Hne Hnone].
  - split; [|reflexivity].
    exists (closed ++ option_list (out_ (bw s))). cbn.
    rewrite Hfiles, <- app_assoc. split; [reflexivity|]. split.
    + apply Forall_app; split; [assumption|].
      destruct (out_ (bw s)) as [f|]; cbn; [|constructor].
      constructor; [|constructor]. destruct Hout. lia.
    + rewrite (size_incr_small 0) by lia. unfold frame_count. cbn. lia.
  - split; [|reflexivity]. exists closed. cbn. auto.
  - split; [|reflexivity].
    exists closed. cbn. rewrite Hf in Hout. destruct Hout as [Hlen Hrange].
    split; [assumption|]. split; [assumption|].
    rewrite size_incr_small by lia.
    unfold frame_count in *. cbn. rewrite length_app. cbn. lia.
  - rewrite Hnone in Hout. destruct Hout. contradiction.
Qed.

Lemma capacity_inv_write_all E base blobs : forall s r s',
  0 < documents_ (bw s) < 2 ^ 64 ->
  capacity_inv base s ->
  write_all E blobs s = (r, s') ->
  capacity_inv base s' /\ documents_ (bw s') = documents_ (bw s).
Proof.
  induction blobs as [|blob rest IH]; intros s r s' Hdocs Hinv Hrun.
  - cbn in Hrun. injection Hrun as <- <-. auto.
  - rewrite write_all_cons in Hrun.
    destruct (write E blob s) as [r1 s1] eqn:Hw.
    destruct (capacity_inv_write _ _ _ _ _ _ Hdocs Hinv Hw) as [Hinv1 Hd1].
    destruct r1; try (injection Hrun as <- <-; auto).
    rewrite <- Hd1 in Hdocs.
    destruct (IH _ _ _ Hdocs Hinv1 Hrun) as [? ?]. split; [assumption|congruence].
Qed.

(** What the invariant says of the files of the run. *)
Lemma capacity_inv_produced base s :
  capacity_inv base s ->
  written_ (bw s) <= documents_ (bw s) /\
  exists made,
    produced s = base ++ made /\
    (out_ (bw s) = None -> made = []) /\
    forall (i : nat) f, made !! i = Some f ->
      1 <= frame_count f <= documents_ (bw s) /\
      ((S i < List.length made)%nat -> frame_count f = documents_ (bw s)).
Proof.
  intros (closed & Hfiles & Hfull & Hout).
  split; [destruct (out_ (bw s)); lia|].
  exists (closed ++ option_list (out_ (bw s))).
  unfold produced, BatchWriter_delete. cbn. rewrite Hfiles, <- app_assoc.
  split; [reflexivity|]. split.
  { intros Hnone. rewrite Hnone in *. destruct Hout as [-> _]. reflexivity. }
  intros i f Hi.
  rewrite Forall_lookup in Hfull.
  destruct (out_ (bw s)) as [g|]; cbn in *.
  - destruct Hout as [Hg Hrange].
    apply lookup_app_Some in Hi as [Hi|[Hlen Hi]].
    + rewrite (Hfull _ _ Hi). lia.
    + apply list_lookup_singleton_Some in Hi as [Hi <-].
      split; [lia|]. rewrite length_app. cbn. lia.
  - destruct Hout as [-> _]. discriminate.
Qed.


(** *** The frames written *)

Lemma frames_inv_new base dir docs zs w :
  files w = base ->
  frames_inv base [] (mkProc (BatchWriter_new dir docs zs) w).
Proof.
  intros <-. exists []. cbn. rewrite app_nil_r. auto.
Qed.

Lemma frames_inv_write E base done blob s r s' :
  frames_inv base done s ->
  write E blob s = (r, s') ->
  match r with
  | Ret _ => frames_inv base (done ++ [blob]) s'
  | _ => frames_inv base done s'
  end.
Proof.
  intros (closed & Hfiles & Hframes) Hw.
  apply write_cases in Hw.
  destruct Hw as [path Heq Hfit ->|e Heq|f Hne Hf|Hne Hnone].
  - exists (closed ++ option_list (out_ (bw s))). cbn.
    rewrite Hfiles, <- app_assoc. split; [reflexivity|].
    rewrite map_app, concat_app, Hframes, map_app. cbn. reflexivity.
  - exists closed. cbn. auto.
  - exists closed. cbn. split; [assumption|].
    rewrite Hf in Hframes. cbn in Hframes.
    rewrite !map_app, !concat_app in *. cbn in *.
    rewrite app_nil_r in *. rewrite app_assoc, Hframes. reflexivity.
  - exists closed. auto.
Qed.

(** The payloads whose frames are in the files are those of the calls
    that returned: all of them when the sequence returns, those before the
    failing call when it throws. *)
Lemma frames_inv_write_all E base blobs : forall done s r s',
  frames_inv base done s ->
  write_all E blobs s = (r, s') ->
  exists written rest,
    blobs = written ++ rest /\
    frames_inv base (done ++ written) s' /\
    match r with Ret _ => rest = [] | _ => rest <> [] end.
Proof.
  induction blobs as [|blob rest IH]; intros done s r s' Hinv Hrun.
  - cbn in Hrun. injection Hrun as <- <-.
    exists [], []. rewrite !app_nil_r. cbn. auto.
  - rewrite write_all_cons in Hrun.
    destruct (write E blob s) as [r1 s1] eqn:Hw.
    pose proof (frames_inv_write _ _ _ _ _ _ _ Hinv Hw) as Hinv1.
    destruct r1;
      try (injection Hrun as <- <-; exists [], (blob :: rest);
           rewrite !app_nil_r; cbn; repeat split; [assumption|discriminate]).
    destruct (IH _ _ _ _ Hinv1 Hrun) as (written & rest' & -> & Hinv' & Hr).
    exists (blob :: written), rest'. split; [reflexivity|].
    rewrite <- app_assoc in Hinv'. auto.
Qed.

Lemma file_bytes_concat (fs : list File) :
  concat (map file_bytes fs) = stream_bytes (concat (map file_frames fs)).
Proof.
  induction fs as [|f fs IH]; [reflexivity|].
  cbn [map concat]. rewrite stream_bytes_app, IH. reflexivity.
Qed.

Lemma frames_inv_produced base done s :
  frames_inv base done s ->
  exists made,
    produced s = base ++ made /\
    concat (map file_bytes made) = stream_bytes (map frame_of done).
Proof.
  intros (closed & Hfiles & Hframes).
  exists (closed ++ option_list (out_ (bw s))).
  unfold produced, BatchWriter_delete. cbn.
  rewrite Hfiles, <- app_assoc, file_bytes_concat, Hframes. auto.
Qed.

(** X1: the round trip of the framing, for a sequence of writes that returns:
    the files made, taken in the order of their creation, decompressed and
    parsed as frames, give back the payloads in the order of the calls. *)
Theorem framing_roundtrip E dir docs zs (ps : list Blob) w s' :
  Forall fits32 ps ->
  write_all E ps (mkProc (BatchWriter_new dir docs zs) w) = (Ret tt, s') ->
  exists made,
    produced s' = files w ++ made /\
    parse_frames (concat (map file_bytes made)) = Some ps.
Proof.
  intros Hfit Hrun.
  destruct (frames_inv_write_all E (files w) ps [] _ _ _
              (frames_inv_new _ dir docs zs w eq_refl) Hrun)
    as (written & rest & Hps & Hinv & ->).
  rewrite app_nil_r in Hps. subst written. cbn in Hinv.
  destruct (frames_inv_produced _ _ _ Hinv) as (made & Hmade & Hbytes).
  exists made. split; [assumption|].
  rewrite Hbytes. now apply parse_frames_frames.
Qed.


End Writer.

Section Names.
Context `{Platform}.

Lemma size_incr_wrap64 n : size_incr (wrap64 n) = wrap64 (n + 1).
Proof. unfold size_incr, wrap64. now rewrite Z.add_mod_idemp_l. Qed.

Lemma names_inv_new base dir docs zs w :
  files w = base -> names_inv base (mkProc (BatchWriter_new dir docs zs) w).
Proof.
  intros <-. exists []. cbn. rewrite app_nil_r. auto.
Qed.

Lemma names_inv_write E base blob s s' :
  names_inv base s ->
  write E blob s = (Ret tt, s') ->
  names_inv base s' /\ output_dir_ (bw s') = output_dir_ (bw s)
  /\ zeroes_ (bw s') = zeroes_ (bw s).
Proof.
  intros (closed & Hfiles & Hcur & Hnames) Hw.
  apply write_cases in Hw.
  inversion Hw as [path Heq Hfit -> Hr|e Heq|f Hne Hf Hr|Hne Hnone]; subst.
  - split; [|auto].
    exists (closed ++ option_list (out_ (bw s))). cbn.
    rewrite Hfiles, <- app_assoc. split; [reflexivity|].
    set (made := closed ++ option_list (out_ (bw s))) in *.
    rewrite length_app, Nat.add_1_r, seq_S, !map_app, Hnames, Hcur,
      size_incr_wrap64. cbn.
    rewrite Nat2Z.inj_succ. unfold Z.succ.
    replace (Z.pos (Pos.of_succ_nat (List.length made)))
      with (Z.of_nat (List.length made) + 1) by lia.
    auto.
  - split; [|auto].
    exists closed. cbn. split; [assumption|].
    rewrite Hf in *. rewrite !length_app, !map_app in *. cbn in *. auto.
Qed.

End Names.

(** ** File names *)

Lemma to_string_fuel_S fuel n acc :
  to_string_fuel (S fuel) n acc =
  if n / 10 =? 0 then String (digit_char (n mod 10)) acc
  else to_string_fuel fuel (n / 10) (String (digit_char (n mod 10)) acc).
Proof. reflexivity. Qed.

Lemma to_string_fuel_length fuel : forall n acc,
  (String.length acc < String.length (to_string_fuel (S fuel) n acc)
   <= S fuel + String.length acc)%nat.
Proof.
  induction fuel as [|fuel IH]; intros n acc.
  - cbn [to_string_fuel]. destruct (n / 10 =? 0); cbn [String.length]; lia.
  - rewrite to_string_fuel_S. destruct (n / 10 =? 0); [cbn [String.length]; lia|].
    specialize (IH (n / 10) (String (digit_char (n mod 10)) acc)).
    cbn [String.length] in IH. lia.
Qed.

Lemma to_string_size n : 1 <= string_size (to_string n) <= 20.
Proof.
  unfold string_size, to_string.
  pose proof (to_string_fuel_length 19 n "") as Hlen. cbn [String.length] in Hlen.
  lia.
Qed.

Lemma string_length_append (a b : string) :
  String.length (a +:+ b) = (String.length a + String.length b)%nat.
Proof. induction a as [|c a IH]; simpl; [reflexivity|now f_equal]. Qed.

Lemma string_rep_length n c : String.length (string_rep n c) = n.
Proof. induction n as [|n IH]; simpl; [reflexivity|now f_equal]. Qed.

(** When the digits of the index fit the width, the name is the index
    padded with zeroes to that width, then the suffix. *)
Lemma file_name_padded zs idx :
  string_size (to_string idx) <= zs < 2 ^ 64 ->
  file_name zs idx =
    string_rep (Z.to_nat (zs - string_size (to_string idx))) "0"
    +:+ to_string idx +:+ ".htmls.gz"
  /\ string_size (file_name zs idx) = zs + 9.
Proof.
  intros Hfit. pose proof (to_string_size idx) as Hlen.
  unfold file_name, size_sub, wrap64.
  rewrite Z.mod_small by lia. split; [reflexivity|].
  unfold string_size in *.
  rewrite !string_length_append, string_rep_length. cbn [String.length]. lia.
Qed.

Section Overflow.
Context `{Platform}.

(** X5: when the index has more digits than the width, the subtraction of
    line 95 wraps and the padding cannot be built: the write that rotates
    throws, with [curr_num_] already advanced and no file opened. *)
Lemma write_throws_on_wide_index E blob s :
  written_ (bw s) = documents_ (bw s) ->
  0 <= zeroes_ (bw s)
    < string_size (to_string (size_incr (curr_num_ (bw s)))) ->
  write E blob s =
    (Throw (mkExn LengthError "basic_string::_M_create"),
     set_curr_num (size_incr (curr_num_ (bw s))) s).
Proof.
  intros Heq Hwide. rewrite write_unfold.
  rewrite (proj2 (Z.eqb_eq _ _) Heq). cbn zeta.
  pose proof (to_string_size (size_incr (curr_num_ (bw s)))) as Hlen.
  pose proof string_max_size_bound as Hmax.
  assert (Hsub : size_sub (zeroes_ (bw s))
                   (string_size (to_string (size_incr (curr_num_ (bw s)))))
                 = 2 ^ 64 + (zeroes_ (bw s)
                   - string_size (to_string (size_incr (curr_num_ (bw s)))))).
  { unfold size_sub, wrap64.
    symmetry. apply Z.mod_unique_pos with (q := -1); lia. }
  rewrite Hsub.
  destruct (Z.ltb_spec string_max_size
              (2 ^ 64 + (zeroes_ (bw s)
                 - string_size (to_string (size_incr (curr_num_ (bw s)))))));
    [reflexivity|lia].
Qed.

End Overflow.

(** ** File indices *)

Section FileIndices.
Context `{Platform}.

Lemma names_inv_write_all E base blobs : forall s s',
  names_inv base s ->
  write_all E blobs s = (Ret tt, s') ->
  names_inv base s' /\ output_dir_ (bw s') = output_dir_ (bw s)
  /\ zeroes_ (bw s') = zeroes_ (bw s).
Proof.
  induction blobs as [|blob rest IH]; intros s s' Hinv Hrun.
  - cbn in Hrun. injection Hrun as <-. auto.
  - rewrite write_all_cons in Hrun.
    destruct (write E blob s) as [[[]|e|c|] s1] eqn:Hw; try discriminate.
    destruct (names_inv_write _ _ _ _ _ Hinv Hw) as (Hinv1 & Hdir & Hzs).
    destruct (IH _ _ Hinv1 Hrun) as (Hinv' & Hdir' & Hzs').
    split; [assumption|]. split; congruence.
Qed.

(** X3: the files of a sequence of writes that returns are named, in the
    order of their creation, for the indices 1, 2, 3 and so on. *)
Theorem file_indices_from_one E dir docs zs (ps : list Blob) w s' :
  write_all E ps (mkProc (BatchWriter_new dir docs zs) w) = (Ret tt, s') ->
  exists made,
    produced s' = files w ++ made /\
    map file_path made
    = map (fun i => path_join dir (file_name zs (wrap64 (Z.of_nat i))))
        (seq 1 (List.length made)).
Proof.
  intros Hrun.
  destruct (names_inv_write_all E (files w) ps _ _
              (names_inv_new _ dir docs zs w eq_refl) Hrun)
    as ((closed & Hfiles & _ & Hnames) & Hdir & Hzs).
  cbn in Hdir, Hzs. rewrite Hdir, Hzs in Hnames.
  exists (closed ++ option_list (out_ (bw s'))).
  unfold produced, BatchWriter_delete. cbn.
  rewrite Hfiles, <- app_assoc. auto.
Qed.

End FileIndices.

(** ** Decimal names are distinct *)

Lemma digit_value_digit_char d : 0 <= d < 10 -> digit_value (digit_char d) = d.
Proof.
  intros Hd. unfold digit_value, digit_char.
  rewrite nat_ascii_embedding by lia. lia.
Qed.

Lemma to_string_fuel_value fuel : forall n acc,
  0 <= n < 10 ^ Z.of_nat (S fuel) ->
  decimal_value (to_string_fuel (S fuel) n acc)
  = n * 10 ^ Z.of_nat (String.length acc) + decimal_value acc.
Proof.
  induction fuel as [|fuel IH]; intros n acc Hn.
  - change (10 ^ Z.of_nat 1) with 10 in Hn.
    rewrite to_string_fuel_S. cbn [to_string_fuel].
    assert (Hq : n / 10 = 0) by (apply Z.div_small; lia).
    rewrite Hq. cbn [Z.eqb decimal_value].
    rewrite digit_value_digit_char by (apply Z.mod_pos_bound; lia).
    rewrite Z.mod_small by lia. reflexivity.
  - rewrite to_string_fuel_S.
    assert (H10 : 0 <= n mod 10 < 10) by (apply Z.mod_pos_bound; lia).
    pose proof (Z.div_mod n 10 ltac:(lia)) as Hdm.
    destruct (Z.eqb_spec (n / 10) 0) as [Hq|Hq].
    + cbn [decimal_value]. rewrite digit_value_digit_char by exact H10. nia.
    + rewrite IH.
      * cbn [decimal_value String.length].
        rewrite digit_value_digit_char by exact H10.
        rewrite Nat2Z.inj_succ, Z.pow_succ_r by lia. nia.
      * rewrite (Nat2Z.inj_succ (S fuel)), Z.pow_succ_r in Hn by lia.
        split; [apply Z.div_pos; lia|].
        apply Z.div_lt_upper_bound; lia.
Qed.

(** [to_string] loses no digit: read back as a decimal number, the
    string of a [size_t] is the number. *)
Lemma to_string_value n : 0 <= n < 2 ^ 64 -> decimal_value (to_string n) = n.
Proof.
  intros Hn. unfold to_string. rewrite to_string_fuel_value.
  - cbn [String.length decimal_value]. lia.
  - change (10 ^ Z.of_nat 20) with 100000000000000000000. lia.
Qed.

Lemma decimal_value_app (a b : string) :
  decimal_value (a +:+ b)
  = decimal_value a * 10 ^ Z.of_nat (String.length b) + decimal_value b.
Proof.
  induction a as [|c a IH].
  - change ("" +:+ b) with b. cbn [decimal_value]. lia.
  - change (String c a +:+ b) with (String c (a +:+ b)).
    cbn [decimal_value]. rewrite IH, string_length_append, Nat2Z.inj_add,
      Z.pow_add_r by lia. ring.
Qed.

Lemma decimal_value_zeroes k : decimal_value (string_rep k "0") = 0.
Proof.
  induction k as [|k IH]; [reflexivity|].
  cbn [string_rep decimal_value]. rewrite IH.
  change (digit_value "0") with 0. lia.
Qed.

(** Two indices whose digits fit the width have different names. *)
Lemma file_name_inj zs a b :
  0 <= a < 2 ^ 64 -> 0 <= b < 2 ^ 64 ->
  string_size (to_string a) <= zs < 2 ^ 64 ->
  string_size (to_string b) <= zs < 2 ^ 64 ->
  file_name zs a = file_name zs b -> a = b.
Proof.
  intros Ha Hb Hfa Hfb Heq.
  apply (f_equal decimal_value) in Heq.
  rewrite (proj1 (file_name_padded zs a Hfa)),
    (proj1 (file_name_padded zs b Hfb)) in Heq.
  rewrite !decimal_value_app, !decimal_value_zeroes, !to_string_value in Heq
    by assumption.
  cbn [String.length] in Heq. lia.
Qed.

Lemma string_app_inv_head (p a b : string) : p +:+ a = p +:+ b -> a = b.
Proof.
  induction p as [|c p IH]; [auto|].
  change (String c p +:+ ?x) with (String c (p +:+ x)).
  intros [= Heq]. auto.
Qed.

Lemma path_join_inj dir a b : path_join dir a = path_join dir b -> a = b.
Proof. apply string_app_inv_head. Qed.

Section Distinct.
Context `{Platform}.

(** A padding that can be built is one whose subtraction did not wrap. *)
Lemma padding_fits zs idx :
  0 <= zs < 2 ^ 64 ->
  size_sub zs (string_size (to_string idx)) <= string_max_size ->
  string_size (to_string idx) <= zs.
Proof.
  intros Hzs Hpad.
  pose proof (to_string_size idx) as Hlen.
  pose proof string_max_size_bound as Hmax.
  destruct (Z_le_gt_dec (string_size (to_string idx)) zs) as [|Hgt];
    [assumption|].
  assert (Hsub : size_sub zs (string_size (to_string idx))
                 = 2 ^ 64 + (zs - string_size (to_string idx))).
  { unfold size_sub, wrap64.
    symmetry. apply Z.mod_unique_pos with (q := -1); lia. }
  lia.
Qed.

Lemma widths_inv_new base dir docs zs w :
  files w = base -> widths_inv base (mkProc (BatchWriter_new dir docs zs) w).
Proof.
  intros <-. exists []. cbn. rewrite app_nil_r.
  split; [reflexivity|]. split; [reflexivity|]. intros i Hi. lia.
Qed.

Lemma widths_inv_write E base blob s s' :
  0 <= zeroes_ (bw s) < 2 ^ 64 ->
  widths_inv base s ->
  write E blob s = (Ret tt, s') ->
  widths_inv base s' /\ zeroes_ (bw s') = zeroes_ (bw s).
Proof.
  intros Hzs (closed & Hfiles & Hcur & Hfit) Hw.
  apply write_cases in Hw.
  inversion Hw as [path Heq Hpad -> Hr|e Heq|f Hne Hf Hr|Hne Hnone]; subst.
  - split; [|reflexivity].
    exists (closed ++ option_list (out_ (bw s))). cbn.
    rewrite Hfiles, <- app_assoc. split; [reflexivity|].
    set (made := closed ++ option_list (out_ (bw s))) in *.
    cbv zeta in Hcur, Hfit.
    rewrite length_app, Nat.add_1_r. cbn [List.length].
    assert (Hidx : size_incr (curr_num_ (bw s))
                   = wrap64 (Z.of_nat (S (List.length made)))).
    { rewrite Hcur, size_incr_wrap64. f_equal. lia. }
    split; [exact Hidx|].
    intros i Hi. destruct (Nat.eq_dec i (S (List.length made))) as [->|Hne].
    + rewrite <- Hidx. now apply padding_fits.
    + apply Hfit. lia.
  - split; [|reflexivity].
    exists closed. cbn. split; [assumption|].
    rewrite Hf in *. rewrite !length_app in *. cbn in *. auto.
Qed.

Lemma widths_inv_write_all E base blobs : forall s s',
  0 <= zeroes_ (bw s) < 2 ^ 64 ->
  widths_inv base s ->
  write_all E blobs s = (Ret tt, s') ->
  widths_inv base s' /\ zeroes_ (bw s') = zeroes_ (bw s).
Proof.
  induction blobs as [|blob rest IH]; intros s s' Hzs Hinv Hrun.
  - cbn in Hrun. injection Hrun as <-. auto.
  - rewrite write_all_cons in Hrun.
    destruct (write E blob s) as [[[]|e|c|] s1] eqn:Hw; try discriminate.
    destruct (widths_inv_write _ _ _ _ _ Hzs Hinv Hw) as (Hinv1 & Hzs1).
    rewrite <- Hzs1 in Hzs.
    destruct (IH _ _ Hzs Hinv1 Hrun) as (Hinv' & Hzs').
    split; [assumption|congruence].
Qed.

(** X4: the files of a sequence of writes that returns have pairwise distinct
    paths, short of [2^64] files: none of them replaces another, and the
    order of their creation is the order of their indices. *)
Theorem file_paths_distinct E dir docs zs (ps : list Blob) w s' :
  0 <= zs < 2 ^ 64 ->
  write_all E ps (mkProc (BatchWriter_new dir docs zs) w) = (Ret tt, s') ->
  exists made,
    produced s' = files w ++ made /\
    (Z.of_nat (List.length made) < 2 ^ 64 -> NoDup (map file_path made)).
Proof.
  intros Hzs Hrun.
  destruct (names_inv_write_all E (files w) ps _ _
              (names_inv_new _ dir docs zs w eq_refl) Hrun)
    as ((closed & Hfiles & _ & Hnames) & Hdir & Hzs').
  destruct (widths_inv_write_all E (files w) ps
              (mkProc (BatchWriter_new dir docs zs) w) s' Hzs
              (widths_inv_new _ dir docs zs w eq_refl) Hrun)
    as ((closed' & Hfiles' & _ & Hfit) & _).
  rewrite Hfiles in Hfiles'. apply app_inv_head in Hfiles'. subst closed'.
  cbn in Hdir, Hzs'. cbv zeta in Hnames, Hfit. rewrite Hdir, Hzs' in *.
  exists (closed ++ option_list (out_ (bw s'))).
  unfold produced, BatchWriter_delete. cbn.
  rewrite Hfiles, <- app_assoc. split; [reflexivity|].
  set (made := closed ++ option_list (out_ (bw s'))) in *.
  intros Hlen. rewrite Hnames.
  apply NoDup_fmap_2_strong; [|apply NoDup_seq].
  intros i j Hi Hj Heq.
  apply elem_of_seq in Hi, Hj.
  assert (Hwrap : forall k : nat, (1 <= k <= List.length made)%nat ->
            wrap64 (Z.of_nat k) = Z.of_nat k).
  { intros k Hk. unfold wrap64. apply Z.mod_small. lia. }
  apply path_join_inj in Heq.
  pose proof (Hfit i ltac:(lia)) as Hfi. pose proof (Hfit j ltac:(lia)) as Hfj.
  rewrite Hwrap in Heq, Hfi by lia. rewrite Hwrap in Heq, Hfj by lia.
  apply file_name_inj in Heq; lia.
Qed.

End Distinct.

(** ** The record filter *)

Lemma starts_with_spec p : forall s,
  starts_with p s = true <-> exists post, s = p +:+ post.
Proof.
  induction p as [|a p IH]; intros s.
  - cbn. split; [intros _; now exists s|auto].
  - destruct s as [|b s]; cbn.
    + split; [discriminate|intros [post Hpost]; discriminate].
    + rewrite andb_true_iff, IH. split.
      * intros [Hab [post ->]]. apply Ascii.eqb_eq in Hab as ->. now exists post.
      * intros [post [= -> ->]]. split; [apply Ascii.eqb_refl|now exists post].
Qed.

Lemma find_from_contains p : forall s i j,
  find_from i s p = Some j -> contains s p.
Proof.
  induction s as [|c s IH]; intros i j; cbn [find_from].
  - destruct (starts_with p "") eqn:Hp; [|discriminate].
    intros _. apply starts_with_spec in Hp as [post Hpost].
    exists "", post. exact Hpost.
  - destruct (starts_with p (String c s)) eqn:Hp.
    + intros _. apply starts_with_spec in Hp as [post Hpost].
      exists "", post. exact Hpost.
    + intros Hfind. destruct (IH _ _ Hfind) as (pre & post & ->).
      exists (String c pre), post. reflexivity.
Qed.

Lemma contains_find_from p : forall pre post i,
  find_from i (pre +:+ p +:+ post) p <> None.
Proof.
  induction pre as [|c pre IH]; intros post i.
  - change ("" +:+ p +:+ post) with (p +:+ post).
    assert (Hp : starts_with p (p +:+ post) = true)
      by (apply starts_with_spec; now exists post).
    revert Hp. generalize (p +:+ post). intros s Hp. destruct s; cbn [find_from]; rewrite Hp; discriminate.
  - change (String c pre +:+ p +:+ post) with (String c (pre +:+ p +:+ post)).
    cbn [find_from].
    destruct (starts_with p _); [discriminate|]. apply IH.
Qed.

(** [find] tells whether the title contains the pattern. *)
Lemma find_npos_iff title pattern :
  find title pattern = npos <-> ~ contains title pattern.
Proof.
  unfold find, npos. split.
  - intros Hnone (pre & post & ->). now apply (contains_find_from pattern pre post 0%nat).
  - intros Hno. destruct (find_from 0 title pattern) as [j|] eqn:Hfind; [|reflexivity].
    exfalso. apply Hno. eapply find_from_contains, Hfind.
Qed.

(** The empty pattern is found in every title, at position 0. *)
Lemma find_empty title : find title "" = Some 0%nat.
Proof. destruct title; reflexivity. Qed.

Lemma classify_Classifies it pattern : Classifies it pattern (classify it pattern).
Proof.
  unfold classify.
  destruct (Ascii.eqb_spec (getNamespace it) "A") as [Hns|Hns]; cbn [negb].
  2: { now apply rule1. }
  destruct (isRedirect it) eqn:Hred; [now apply rule2|].
  destruct (isDeleted it) eqn:Hdel; [now apply rule3|].
  destruct (bool_decide_reflect (find (getTitle it) pattern = npos)) as [Hf|Hf];
    cbn [negb].
  - apply rule5; auto. now apply find_npos_iff.
  - apply rule4; auto.
    destruct (find (getTitle it) pattern) eqn:Hfind; [|contradiction].
    eapply find_from_contains, Hfind.
Qed.

Lemma Classifies_unique it pattern d1 d2 :
  Classifies it pattern d1 -> Classifies it pattern d2 -> d1 = d2.
Proof.
  intros H1 H2; destruct H1; destruct H2; congruence || contradiction.
Qed.

Section Filter.
Context `{Platform}.

Lemma loop_body_dispose E pattern it doc_no :
  loop_body E pattern it doc_no = dispose E (classify it pattern) it doc_no.
Proof.
  unfold loop_body, classify.
  destruct (negb (Ascii.eqb (getNamespace it) "A")); [reflexivity|].
  destruct (isRedirect it); [reflexivity|].
  destruct (isDeleted it); [reflexivity|].
  destruct (negb (bool_decide (find (getTitle it) pattern = npos))); reflexivity.
Qed.

(** C3: for every article and every pattern exactly one of the five
    decisions applies under the rules of the specification taken in their
    order (namespace, redirect, deleted, title containing the pattern,
    admit), it is the decision the conditions of the code compute, and the
    loop body does what belongs to that decision. *)
Theorem C3_filter_first_match E (it : Article) (pattern : string) :
  Classifies it pattern (classify it pattern) /\
  (forall d, Classifies it pattern d -> d = classify it pattern) /\
  (forall doc_no,
     loop_body E pattern it doc_no
     = dispose E (classify it pattern) it doc_no).
Proof.
  split; [apply classify_Classifies|]. split.
  - intros d Hd. eapply Classifies_unique; [exact Hd|apply classify_Classifies].
  - intros. apply loop_body_dispose.
Qed.

End Filter.

(** C4, as the code has it: when the language is not in the table, the
    pattern that the lookup yields is the empty string, and the empty
    string is found in every title: an article of namespace A that is
    neither a redirect nor deleted is dropped as a disambiguation page. *)
Theorem C4_empty_pattern_drops (w : World) (lang : string) (it : Article) :
  disambig w !! lang = None ->
  getNamespace it = "A"%char ->
  isRedirect it = false ->
  isDeleted it = false ->
  fst (disambig_index lang w) = Ret "" /\
  classify it "" = DropDisambiguation.
Proof.
  intros Hlang Hns Hred Hdel. split.
  - unfold disambig_index, bind, get. cbn. rewrite Hlang. reflexivity.
  - unfold classify. rewrite Hns, Hred, Hdel, find_empty. reflexivity.
Qed.

(** The theorem at the unsupported code "de" and the article "Budapest". *)
Lemma C4_empty_pattern_drops_witness :
  fst (disambig_index "de" World_init) = Ret "" /\
  classify (mkArticle "Budapest" "A" false false [x01]) "" = DropDisambiguation.
Proof.
  apply (C4_empty_pattern_drops World_init "de"
           (mkArticle "Budapest" "A" false false [x01])); reflexivity.
Defined.

(** C4 fails as stated: under the empty pattern that the lookup of the
    unsupported code "de" yields, the article "Budapest" of namespace A,
    neither redirect nor deleted, is not admitted. *)
Lemma C4_empty_pattern_counterexample :
  let it := mkArticle "Budapest" "A" false false [x01] in
  fst (disambig_index "de" World_init) = Ret "" /\
  getNamespace it = "A"%char /\ isRedirect it = false /\ isDeleted it = false /\
  classify it "" = DropDisambiguation /\
  classify it "" <> Admit.
Proof.
  cbv zeta. repeat split; try reflexivity. discriminate.
Qed.

(** ** The argument parser *)

(** What [parse] does, case by case. *)
Lemma parse_unfold E cl w :
  parse E cl w =
  match cl with
  | inl e =>
      if catches_OptionException (exn_kind e)
      then (Exit 1, set_cerr (cerr w ++ ["Error parsing options: " +:+ what e]) w)
      else (Throw e, w)
  | inr args =>
      if (0 <? count_help args)%nat then
        (Exit 0, set_cout (cout w ++ [options_help E]) w)
      else if (count_of (input_file args) =? 0)%nat
              || (count_of (output_dir args) =? 0)%nat then
        (Exit 1, set_cout (cout w ++ ["Both -i and -o must be specified."]) w)
      else if (count_of (disambig w !! language args) =? 0)%nat then
        (Ret args,
         set_cout (cout w ++ ["Language '" +:+ language args
                              +:+ "' is no supported. "
                              +:+ "Choose between 'en' and 'hu'."]) w)
      else (Ret args, w)
  end.
Proof.
  unfold parse, try_catch, bind, options_parse, disambig_count, get.
  destruct cl as [e|args]; cbn.
  - destruct (catches_OptionException (exn_kind e)); reflexivity.
  - destruct (count_help args); cbn; [|reflexivity].
    destruct (input_file args); cbn; [|reflexivity].
    destruct (output_dir args); cbn; [|reflexivity].
    destruct (disambig w !! language args); reflexivity.
Qed.

(** [parse] writes to the two streams only. *)
Lemma parse_streams_only E cl w r w' :
  parse E cl w = (r, w') ->
  disambig w' = disambig w /\ dirs w' = dirs w /\ files w' = files w.
Proof.
  rewrite parse_unfold. destruct cl as [e|args].
  - destruct (catches_OptionException _); intros [= <- <-]; auto.
  - repeat match goal with
           | |- context [if ?b then _ else _] => destruct b
           end; intros [= <- <-]; auto.
Qed.

(** When [parse] returns, the two paths are there and no help was asked. *)
Lemma parse_returns E cl w args w' :
  parse E cl w = (Ret args, w') ->
  cl = inr args /\ count_help args = 0%nat /\
  (exists input, input_file args = Some input) /\
  (exists dir, output_dir args = Some dir) /\
  cerr w' = cerr w.
Proof.
  rewrite parse_unfold. destruct cl as [e|a].
  - destruct (catches_OptionException _); discriminate.
  - destruct (Nat.ltb_spec 0 (count_help a)); [discriminate|].
    destruct (input_file a) as [input|] eqn:Hin; [|discriminate].
    destruct (output_dir a) as [dir|] eqn:Hout; [|discriminate]. cbn.
    destruct (count_of (disambig w !! language a) =? 0)%nat;
      intros [= <- <-]; repeat split; eauto; lia.
Qed.

(** ** main *)

Section Main.
Context `{Platform}.

Lemma main_unfold E cl w :
  main E cl w =
  match parse E cl w with
  | (Ret args, w1) =>
      match output_dir args with
      | Some dir =>
          let s := mkProc (BatchWriter_new dir (documents args) (zeroes args)) w1 in
          match try_block E args s with
          | (Ret _, s') => (Ret 0, BatchWriter_delete s')
          | (Throw e, s') => (Ret 0, BatchWriter_delete (reported e s'))
          | (Exit c, s') => (Exit c, world s')
          | (Undefined, s') => (Undefined, world s')
          end
      | None =>
          (Throw (mkExn RuntimeError "Option output-dir has no value"), w1)
      end
  | (Throw e, w1) => (Throw e, w1)
  | (Exit c, w1) => (Exit c, w1)
  | (Undefined, w1) => (Undefined, w1)
  end.
Proof.
  unfold main, bind at 1.
  destruct (parse E cl w) as [[args|e|c|] w1]; try reflexivity.
  destruct (output_dir args) as [dir|]; [|reflexivity].
  unfold bind, as_string, ret, try_catch. cbn.
  destruct (try_block E args _) as [[[]|e|c|] s']; reflexivity.
Qed.

(** *** No call through a null [out_] *)

Lemma out_inv_write E blob s r s' :
  out_inv s -> write E blob s = (r, s') -> out_inv s' /\ completes r.
Proof.
  unfold out_inv. intros Hinv Hw. apply write_cases in Hw.
  destruct Hw as [path Heq Hfit ->|e Heq|f Hne Hf|Hne Hnone]; cbn; auto.
  - split; [discriminate|exact I].
  - split; [discriminate|exact I].
Qed.

Lemma in_world_cerr_endl line s :
  in_world (cerr_endl line) s
  = (Ret tt, mkProc (bw s) (set_cerr (cerr (world s) ++ [line]) (world s))).
Proof. reflexivity. Qed.

Lemma out_inv_loop_body E pattern it doc_no s r s' :
  out_inv s -> loop_body E pattern it doc_no s = (r, s') ->
  out_inv s' /\ completes r.
Proof.
  intros Hinv. rewrite loop_body_dispose.
  destruct (classify it pattern); unfold dispose, bind;
    rewrite ?in_world_cerr_endl; try (intros [= <- <-]; now split).
  destruct (_ =? 0); unfold ret; rewrite ?in_world_cerr_endl;
    match goal with
    | |- context [write E ?b ?st] =>
        destruct (write E b st) as [r1 s2] eqn:Hw
    end;
    (apply out_inv_write in Hw as [Hinv2 Hr1]; [|exact Hinv]);
    destruct r1; intros [= <- <-]; now split.
Qed.

Lemma out_inv_loop E pattern f : forall doc_no s r s',
  out_inv s -> loop E pattern f doc_no s = (r, s') ->
  out_inv s' /\ completes r.
Proof.
  induction f as [|[e|it] rest IH]; intros doc_no s r s' Hinv; cbn [loop].
  - intros [= <- <-]. now split.
  - intros [= <- <-]. now split.
  - unfold bind. destruct (loop_body E pattern it doc_no s) as [r1 s1] eqn:Hb.
    apply out_inv_loop_body in Hb as [Hinv1 Hr1]; [|exact Hinv].
    destruct r1; try (intros [= <- <-]; now split).
    apply IH, Hinv1.
Qed.

Lemma try_block_completes E args dir w r s' :
  try_block E args (mkProc (BatchWriter_new dir (documents args) (zeroes args)) w)
  = (r, s') ->
  completes r.
Proof.
  unfold try_block, bind, as_string, zim_File_new, fs_create_directory,
    in_world, disambig_index, get, modify, ret, throw.
  destruct (input_file args) as [input|]; [|intros [= <- <-]; exact I].
  destruct (zim_File E input) as [e|f]; [intros [= <- <-]; exact I|].
  destruct (output_dir args) as [dir'|]; [|intros [= <- <-]; exact I].
  destruct (create_directory E dir') as [e|]; [intros [= <- <-]; exact I|].
  cbn.
  destruct (disambig w !! language args) as [pattern|]; cbn;
    intros Hloop; apply out_inv_loop in Hloop; try apply Hloop;
    unfold out_inv; cbn; auto.
Qed.

End Main.

(** ** The table and the language *)

Section Table.
Context `{Platform}.

Lemma disambig_index_spec key w :
  disambig_index key w =
  match disambig w !! key with
  | Some v => (Ret v, w)
  | None => (Ret "", set_disambig (<[key := ""]> (disambig w)) w)
  end.
Proof.
  unfold disambig_index, bind, get. cbn.
  destruct (disambig w !! key); reflexivity.
Qed.

Lemma write_keeps_table E blob s r s' :
  write E blob s = (r, s') -> disambig (world s') = disambig (world s).
Proof.
  intros Hw. apply write_cases in Hw. destruct Hw; reflexivity.
Qed.

Lemma loop_body_keeps_table E pattern it doc_no s r s' :
  loop_body E pattern it doc_no s = (r, s') ->
  disambig (world s') = disambig (world s).
Proof.
  rewrite loop_body_dispose.
  destruct (classify it pattern); unfold dispose, bind;
    rewrite ?in_world_cerr_endl; try (intros [= <- <-]; reflexivity).
  destruct (_ =? 0); unfold ret; rewrite ?in_world_cerr_endl;
    match goal with
    | |- context [write E ?b ?st] =>
        destruct (write E b st) as [r1 s2] eqn:Hw
    end;
    apply write_keeps_table in Hw;
    destruct r1; intros [= <- <-]; exact Hw.
Qed.

Lemma loop_keeps_table E pattern f : forall doc_no s r s',
  loop E pattern f doc_no s = (r, s') ->
  disambig (world s') = disambig (world s).
Proof.
  induction f as [|[e|it] rest IH]; intros doc_no s r s'; cbn [loop].
  - intros [= <- <-]. reflexivity.
  - intros [= <- <-]. reflexivity.
  - unfold bind. destruct (loop_body E pattern it doc_no s) as [r1 s1] eqn:Hb.
    apply loop_body_keeps_table in Hb.
    destruct r1; try (intros [= <- <-]; exact Hb).
    intros Hloop. apply IH in Hloop. congruence.
Qed.

(** X6: for a language of the table, no step of the run changes the table. *)
Theorem table_unchanged_when_supported E args w pattern :
  disambig w !! language args = Some pattern ->
  disambig (snd (main E (inr args) w)) = disambig w.
Proof.
  intros Hlang. rewrite main_unfold.
  destruct (parse E (inr args) w) as [r w1] eqn:Hparse.
  destruct (parse_streams_only _ _ _ _ _ Hparse) as (Htable & _ & _).
  destruct r as [a|e1|c|]; cbn [snd]; auto.
  apply parse_returns in Hparse as ([= <-] & _).
  destruct (output_dir args) as [dir|] eqn:Hdir; cbn [snd]; auto. cbv zeta.
  destruct (try_block E args _) as [r s'] eqn:Htry.
  assert (Hs' : disambig (world s') = disambig w1).
  { revert Htry.
    unfold try_block, bind, as_string, zim_File_new, fs_create_directory,
      in_world, ret, throw.
    destruct (input_file args); [|intros [= <- <-]; reflexivity].
    destruct (zim_File E _); [intros [= <- <-]; reflexivity|].
    rewrite Hdir.
    destruct (create_directory E _); [intros [= <- <-]; reflexivity|].
    unfold modify. cbn [world bw fst snd]. rewrite disambig_index_spec.
    cbn [world bw fst snd set_dirs disambig]. rewrite Htable, Hlang.
    intros Hloop. apply loop_keeps_table in Hloop. rewrite Hloop. cbn.
    congruence. }
  destruct r as [[]|e|c|]; cbn; congruence.
Qed.

(** For a language that is not in the table, [parse] prints a line on the
    standard output and returns: it neither exits nor writes to the error
    stream. *)
Lemma parse_unsupported_language_returns E args w input dir :
  count_help args = 0%nat ->
  input_file args = Some input ->
  output_dir args = Some dir ->
  disambig w !! language args = None ->
  parse E (inr args) w
  = (Ret args,
     set_cout (cout w ++ ["Language '" +:+ language args
                          +:+ "' is no supported. "
                          +:+ "Choose between 'en' and 'hu'."]) w).
Proof.
  intros Hhelp Hin Hout Hlang. rewrite parse_unfold, Hhelp, Hin, Hout, Hlang.
  reflexivity.
Qed.

End Table.

(** ** The claims on the batch writer *)

Section WriterClaims.
Context `{Platform}.

(** C2: with a capacity of at least one document, after any sequence of
    calls of [write] on a new writer, whether it returned or was cut short
    by an exception: after each of the calls [written_] is at most the
    capacity; of the files made, each holds at least one frame and at most
    the capacity, and each one but the last holds exactly the capacity;
    without a call no file is made. *)
Theorem C2_capacity_invariant E dir docs zs (ps : list Blob) w r s' :
  0 < docs < 2 ^ 64 ->
  write_all E ps (mkProc (BatchWriter_new dir docs zs) w) = (r, s') ->
  (forall k : nat,
     written_ (bw (snd (write_all E (take k ps)
                          (mkProc (BatchWriter_new dir docs zs) w))))
     <= docs) /\
  exists made,
    produced s' = files w ++ made /\
    (ps = [] -> made = []) /\
    forall (i : nat) f, made !! i = Some f ->
      1 <= frame_count f <= docs /\
      ((S i < List.length made)%nat -> frame_count f = docs).
Proof.
  intros Hdocs Hrun. split.
  { intros k.
    destruct (write_all E (take k ps) _) as [rk sk] eqn:Hk.
    destruct (capacity_inv_write_all E (files w) (take k ps)
                (mkProc (BatchWriter_new dir docs zs) w) rk sk Hdocs
                (capacity_inv_new _ dir docs zs w eq_refl) Hk) as [Hinv Hd].
    cbn in Hd. rewrite <- Hd. cbn [snd].
    apply (capacity_inv_produced _ _ Hinv). }
  destruct (capacity_inv_write_all E (files w) ps
              (mkProc (BatchWriter_new dir docs zs) w) r s' Hdocs
              (capacity_inv_new _ dir docs zs w eq_refl) Hrun) as [Hinv Hd].
  cbn in Hd. rewrite <- Hd.
  destruct (capacity_inv_produced _ _ Hinv) as (_ & made & Hmade & Hnone & Hall).
  exists made. split; [exact Hmade|]. split; [|exact Hall].
  intros ->. cbn in Hrun. injection Hrun as <- <-. now apply Hnone.
Qed.

End WriterClaims.

(** The theorem on three payloads at two documents per file. *)
Lemma C2_capacity_invariant_witness :
  let init := mkProc (BatchWriter_new "out" 2 4) World_init in
  let run := write_all (H := libstdcxx) (Env_ok []) (take 3 ten_blobs) init in
  (forall k : nat,
     written_ (bw (snd (write_all (H := libstdcxx) (Env_ok [])
                          (take k (take 3 ten_blobs)) init))) <= 2) /\
  exists made,
    produced (snd run) = files World_init ++ made /\
    (take 3 ten_blobs = [] -> made = []) /\
    forall (i : nat) f, made !! i = Some f ->
      1 <= frame_count f <= 2 /\
      ((S i < List.length made)%nat -> frame_count f = 2).
Proof.
  cbv zeta.
  apply (C2_capacity_invariant (H := libstdcxx) (Env_ok []) "out" 2 4
           (take 3 ten_blobs) World_init
           (fst (write_all (H := libstdcxx) (Env_ok []) (take 3 ten_blobs)
                   (mkProc (BatchWriter_new "out" 2 4) World_init)))).
  - lia.
  - vm_compute. reflexivity.
Defined.

(** ** The claims on the exit behaviour *)

Section ExitClaims.
Context `{Platform}.

(** C8: once [parse] has returned, whatever the archive reader, the file
    system and the sink do, [main] returns 0; and when the block under
    [try] throws, its exception is caught and its message is the last
    line of the error stream. *)
Theorem C8_runtime_failure_caught E cl w args w1 :
  parse E cl w = (Ret args, w1) ->
  fst (main E cl w) = Ret 0 /\
  forall dir e s',
    output_dir args = Some dir ->
    try_block E args
      (mkProc (BatchWriter_new dir (documents args) (zeroes args)) w1)
    = (Throw e, s') ->
    cerr (snd (main E cl w)) = cerr (world s') ++ [what e].
Proof.
  intros Hparse. rewrite main_unfold, Hparse.
  destruct (parse_returns _ _ _ _ _ Hparse) as (_ & _ & _ & [dir Hdir] & _).
  rewrite Hdir. cbn zeta.
  destruct (try_block E args _) as [r s1] eqn:Htry.
  pose proof (try_block_completes _ _ _ _ _ _ Htry) as Hr.
  destruct r as [[]|e1|c|]; try contradiction.
  - split; [reflexivity|]. intros dir' e s' [= <-]. rewrite Htry. discriminate.
  - split; [reflexivity|]. intros dir' e s' [= <-]. rewrite Htry.
    intros [= <- <-]. reflexivity.
Qed.

(** C9: when the help option is on the command line, [main] prints the
    usage on the standard output and exits with status 0, whether or not
    the input file and the output directory are given. *)
Theorem C9_help_before_required E args w :
  (0 < count_help args)%nat ->
  main E (inr args) w
  = (Exit 0, set_cout (cout w ++ [options_help E]) w).
Proof.
  intros Hhelp. rewrite main_unfold, parse_unfold.
  destruct (Nat.ltb_spec 0 (count_help args)); [reflexivity|lia].
Qed.

(** C10: when the archive cannot be opened, the run leaves the
    directories and the batch files as they were: no directory is made
    and no file is opened. *)
Theorem C10_archive_failure_no_output E args w input e :
  input_file args = Some input ->
  zim_File E input = inl e ->
  dirs (snd (main E (inr args) w)) = dirs w /\
  files (snd (main E (inr args) w)) = files w.
Proof.
  intros Hin Hopen. rewrite main_unfold.
  destruct (parse E (inr args) w) as [r w1] eqn:Hparse.
  destruct (parse_streams_only _ _ _ _ _ Hparse) as (_ & Hdirs & Hfiles).
  destruct r as [a|e1|c|]; cbn [snd]; auto.
  apply parse_returns in Hparse as ([= <-] & _).
  destruct (output_dir args) as [dir|]; cbn [snd]; auto.
  unfold try_block, bind, as_string, zim_File_new. rewrite Hin. cbn.
  rewrite Hopen. cbn. rewrite app_nil_r. auto.
Qed.

End ExitClaims.

(** The theorem on a run whose archive cannot be opened. *)
Lemma C8_runtime_failure_caught_witness :
  fst (main (H := libstdcxx) Env_no_archive (inr (args_of "en" 2500 4))
         World_init) = Ret 0 /\
  forall dir e s',
    output_dir (args_of "en" 2500 4) = Some dir ->
    try_block (H := libstdcxx) Env_no_archive (args_of "en" 2500 4)
      (mkProc (BatchWriter_new dir 2500 4) World_init)
    = (Throw e, s') ->
    cerr (snd (main (H := libstdcxx) Env_no_archive
                 (inr (args_of "en" 2500 4)) World_init))
    = cerr (world s') ++ [what e].
Proof.
  apply (C8_runtime_failure_caught (H := libstdcxx) Env_no_archive
           (inr (args_of "en" 2500 4)) World_init (args_of "en" 2500 4)
           World_init).
  reflexivity.
Defined.

(** The theorem on the command line [-h], without input file and output
    directory. *)
Lemma C9_help_before_required_witness :
  input_file args_help = None /\ output_dir args_help = None /\
  main (H := libstdcxx) (Env_ok []) (inr args_help) World_init
  = (Exit 0, set_cout (cout World_init ++ [options_help (Env_ok [])])
               World_init).
Proof.
  split; [reflexivity|]. split; [reflexivity|].
  apply (C9_help_before_required (H := libstdcxx) (Env_ok []) args_help
           World_init).
  cbn. lia.
Defined.

(** The theorem on a run whose archive cannot be opened. *)
Lemma C10_archive_failure_no_output_witness :
  dirs (snd (main (H := libstdcxx) Env_no_archive
               (inr (args_of "en" 2500 4)) World_init)) = dirs World_init /\
  files (snd (main (H := libstdcxx) Env_no_archive
                (inr (args_of "en" 2500 4)) World_init)) = files World_init.
Proof.
  apply (C10_archive_failure_no_output (H := libstdcxx) Env_no_archive
           (args_of "en" 2500 4) World_init "wiki.zim"
           (mkExn RuntimeError "error reading zim-file header"));
    reflexivity.
Defined.

(** ** Where the code departs from the claims *)

(** C5 on the code: with a width of one digit and one document per file,
    nine writes make the files 1 to 9; at the tenth, the index 10 has two
    digits, [zeroes_ - num.length()] wraps to [2^64 - 1], the padding
    cannot be built and [write] throws [std::length_error]: no file is
    named for the index 10, although [curr_num_] has moved to it. *)
Theorem C5_wide_index_throws :
  let E := Env_ok [] in
  let s9 := snd (write_all (H := libstdcxx) E (take 9 ten_blobs)
                   (mkProc (BatchWriter_new "out" 1 1) World_init)) in
  map file_path (produced s9)
  = ["out/1.htmls.gz"; "out/2.htmls.gz"; "out/3.htmls.gz"; "out/4.htmls.gz";
     "out/5.htmls.gz"; "out/6.htmls.gz"; "out/7.htmls.gz"; "out/8.htmls.gz";
     "out/9.htmls.gz"] /\
  to_string (size_incr (curr_num_ (bw s9))) = "10" /\
  size_sub (zeroes_ (bw s9)) (string_size "10") = 2 ^ 64 - 1 /\
  write (H := libstdcxx) E [x0a] s9
  = (Throw (mkExn LengthError "basic_string::_M_create"),
     set_curr_num 10 s9) /\
  produced (set_curr_num 10 s9) = produced s9.
Proof. vm_compute. repeat split; reflexivity. Qed.

(** C1 on the code: ten payloads of one byte, a width of one digit and one
    document per file.  The tenth call of [write] throws; the files made,
    in the order of their indices, parse to the first nine payloads, and
    the tenth is in no file. *)
Theorem C1_tenth_payload_lost :
  let run := write_all (H := libstdcxx) (Env_ok []) ten_blobs
               (mkProc (BatchWriter_new "out" 1 1) World_init) in
  Forall fits32 ten_blobs /\
  fst run = Throw (mkExn LengthError "basic_string::_M_create") /\
  parse_frames (concat (map file_bytes (produced (snd run))))
  = Some (take 9 ten_blobs) /\
  parse_frames (concat (map file_bytes (produced (snd run))))
  <> Some ten_blobs.
Proof.
  cbv zeta. split.
  { repeat constructor. }
  split; [vm_compute; reflexivity|].
  assert (Hparse : parse_frames
            (concat (map file_bytes (produced (snd
               (write_all (H := libstdcxx) (Env_ok []) ten_blobs
                  (mkProc (BatchWriter_new "out" 1 1) World_init))))))
          = Some (take 9 ten_blobs)) by (vm_compute; reflexivity).
  split; [exact Hparse|]. rewrite Hparse. discriminate.
Qed.

(** The same run through [main]: the ten articles pass the filter, the
    tenth is lost, the message of the exception is the last line of the
    error stream and [main] returns 0. *)
Example main_loses_tenth_article :
  let run := main (H := libstdcxx) (Env_ok ten_articles)
               (inr (args_of "en" 1 1)) World_init in
  fst run = Ret 0 /\
  last (cerr (snd run)) = Some "basic_string::_M_create" /\
  parse_frames (concat (map file_bytes (files (snd run))))
  = Some (take 9 ten_blobs).
Proof. vm_compute. repeat split; reflexivity. Qed.

(** C6 on the code: with the language "de", which is not in the table,
    [parse] prints its message on the standard output and returns; [main]
    opens the archive, makes the output directory, drops the article as a
    disambiguation page under the empty pattern, and returns 0. *)
Theorem C6_unsupported_language_runs_on :
  let run := main (H := libstdcxx) (Env_ok [inr budapest])
               (inr (args_of "de" 2500 4)) World_init in
  disambig World_init !! "de" = None /\
  fst run = Ret 0 /\
  cout (snd run)
  = ["Language 'de' is no supported. Choose between 'en' and 'hu'."] /\
  cerr (snd run) = ["Dropping disambiguation article Budapest..."] /\
  dirs (snd run) = ["out"] /\
  files (snd run) = [].
Proof. vm_compute. repeat split; reflexivity. Qed.

(** C7 on the code: the same run leaves the table with one key more,
    "de", under which is the empty string. *)
Theorem C7_lookup_inserts_unsupported_code :
  let run := main (H := libstdcxx) (Env_ok [inr budapest])
               (inr (args_of "de" 2500 4)) World_init in
  disambig World_init !! "de" = None /\
  disambig (snd run) !! "de" = Some "" /\
  disambig (snd run) = <["de" := ""]> (disambig World_init).
Proof. vm_compute. repeat split; reflexivity. Qed.

(** ** The scenarios of the specification *)

Example to_string_examples :
  to_string 0 = "0" /\ to_string 1 = "1" /\ to_string 10000 = "10000" /\
  to_string (2 ^ 64 - 1) = "18446744073709551615".
Proof. repeat split; reflexivity. Qed.

Example path_join_examples :
  path_join "out" "0001.htmls.gz" = "out/0001.htmls.gz" /\
  path_join "out/" "0001.htmls.gz" = "out/0001.htmls.gz" /\
  path_join "" "0001.htmls.gz" = "0001.htmls.gz".
Proof. repeat split; reflexivity. Qed.

Example file_name_examples :
  file_name 4 1 = "0001.htmls.gz" /\ file_name 4 9999 = "9999.htmls.gz" /\
  file_name 5 10000 = "10000.htmls.gz".
Proof. repeat split; reflexivity. Qed.

(** At the default width of four digits the index 10000 is the first
    whose padding cannot be built. *)
Example default_width_overflow :
  file_name 4 9999 = "9999.htmls.gz" /\
  string_size (to_string 10000) = 5 /\
  size_sub 4 (string_size (to_string 10000)) = 2 ^ 64 - 1 /\
  fst (string_fill (H := libstdcxx) (size_sub 4 5) "0" tt)
  = Throw (mkExn LengthError "basic_string::_M_create").
Proof. repeat split; reflexivity. Qed.

(** A title that ends with the marker, and one that has it in the middle,
    are dropped; one without it is admitted. *)
Example disambiguation_examples :
  classify (mkArticle "Foo (disambiguation)" "A" false false [])
    "(disambiguation)" = DropDisambiguation /\
  classify (mkArticle "Foo (disambiguation) bar" "A" false false [])
    "(disambiguation)" = DropDisambiguation /\
  classify (mkArticle "Foo" "A" false false []) "(disambiguation)" = Admit /\
  classify (mkArticle "Foo (disambiguation)" "I" true true [])
    "(disambiguation)" = DropNotArticleNamespace.
Proof. repeat split; reflexivity. Qed.

(** Two documents per file; A, C, D and E are admitted and B is a
    redirect: the file 0001 holds A and C, the file 0002 holds D and E. *)
Example two_per_file_scenario :
  let art title redirect blob := inr (mkArticle title "A" redirect false blob) in
  let run := main (H := libstdcxx)
               (Env_ok [art "A" false [x0a]; art "B" true [x0b];
                        art "C" false [x0c]; art "D" false [x0d];
                        art "E" false [x0e]])
               (inr (args_of "en" 2 4)) World_init in
  fst run = Ret 0 /\
  files (snd run)
  = [mkFile "out/0001.htmls.gz" [frame_of [x0a]; frame_of [x0c]];
     mkFile "out/0002.htmls.gz" [frame_of [x0d]; frame_of [x0e]]] /\
  cerr (snd run)
  = ["Writing articule A..."; "Dropping redirect article B...";
     "Writing articule C..."; "Writing articule D...";
     "Writing articule E..."].
Proof. vm_compute. repeat split; reflexivity. Qed.

(** When every article is dropped no file is made. *)
Example all_dropped_scenario :
  let run := main (H := libstdcxx)
               (Env_ok [inr (mkArticle "B" "A" true false [x0b]);
                        inr (mkArticle "I" "I" false false [x0c])])
               (inr (args_of "en" 2 4)) World_init in
  fst run = Ret 0 /\ files (snd run) = [] /\ dirs (snd run) = ["out"].
Proof. vm_compute. repeat split; reflexivity. Qed.

(** * Further properties of the code *)

(** ** The length prefix *)

(** X11: the four bytes of the prefix of a frame, read back in network
    byte order, are the byte length of the payload modulo [2^32]: the
    length itself below 4 GiB, its low 32 bits from there on. *)
Theorem X11_prefix_is_size_mod_2_32 (blob : Blob) :
  exists b3 b2 b1 b0,
    frame_prefix (frame_of blob) = [b3; b2; b1; b0] /\
    ntohl_bytes b3 b2 b1 b0 = blob_size blob mod 2 ^ 32 /\
    (ntohl_bytes b3 b2 b1 b0 = blob_size blob <-> fits32 blob).
Proof.
  do 4 eexists. split; [reflexivity|].
  assert (Hw : 0 <= wrap32 (blob_size blob) < 2 ^ 32)
    by (apply Z.mod_pos_bound; lia).
  rewrite (ntohl_htonl _ Hw). split; [reflexivity|].
  unfold fits32, wrap32, blob_size in *. split.
  - intros Heq. rewrite <- Heq. lia.
  - intros Hfit. apply Z.mod_small. lia.
Qed.

(** ** The layout of the batch files *)

Lemma concat_chunk_lookup {A} (d : nat) (l : list (list A)) : forall i x,
  (forall j y, (j < i)%nat -> l !! j = Some y -> List.length y = d) ->
  l !! i = Some x ->
  (List.length x <= d)%nat ->
  ((S i < List.length l)%nat -> List.length x = d) ->
  x = take d (drop (i * d) (concat l)).
Proof.
  induction l as [|y l IH]; intros i x Hfull Hi Hle Hlast; [discriminate|].
  destruct i as [|i]; cbn in Hi.
  - injection Hi as ->. cbn [concat Nat.mul]. rewrite drop_0.
    destruct l as [|z l].
    + cbn. rewrite app_nil_r. symmetry. apply take_ge. lia.
    + pose proof (Hlast ltac:(cbn; lia)) as Hd. subst d. now rewrite take_app_length.
  - assert (Hy : List.length y = d) by (apply (Hfull 0%nat); [lia|reflexivity]).
    cbn [concat]. replace (S i * d)%nat with (List.length y + i * d)%nat by lia.
    rewrite drop_app_add. apply IH; try assumption.
    + intros j z Hj Hz. apply (Hfull (S j)); [lia|exact Hz].
    + intros Hlt. apply Hlast. cbn. lia.
Qed.

Lemma length_concat_full {A} (d : nat) (l : list (list A)) :
  Forall (fun y => List.length y = d) l ->
  List.length (concat l) = (d * List.length l)%nat.
Proof.
  induction 1 as [|y l Hy _ IH]; cbn; [lia|].
  rewrite length_app, IH, Hy. lia.
Qed.

Section Layout.
Context `{Platform}.

(** The two invariants of a returning run, on the same list of files. *)
Lemma run_shape E dir docs zs (ps : list Blob) w s' :
  0 < docs < 2 ^ 64 ->
  write_all E ps (mkProc (BatchWriter_new dir docs zs) w) = (Ret tt, s') ->
  exists closed,
    produced s' = files w ++ closed ++ option_list (out_ (bw s')) /\
    Forall (fun f => frame_count f = docs) closed /\
    match out_ (bw s') with
    | None => closed = []
    | Some f => 1 <= frame_count f <= docs
    end /\
    concat (map file_frames (closed ++ option_list (out_ (bw s'))))
    = map frame_of ps.
Proof.
  intros Hdocs Hrun.
  destruct (capacity_inv_write_all E (files w) ps
              (mkProc (BatchWriter_new dir docs zs) w) (Ret tt) s' Hdocs
              (capacity_inv_new _ dir docs zs w eq_refl) Hrun)
    as [(closed & Hfiles & Hfull & Hout) Hd].
  destruct (frames_inv_write_all E (files w) ps [] _ _ _
              (frames_inv_new _ dir docs zs w eq_refl) Hrun)
    as (written & rest & Hps & (closed' & Hfiles' & Hframes) & ->).
  rewrite app_nil_r in Hps. subst written. cbn in Hframes, Hd.
  rewrite Hfiles in Hfiles'. apply app_inv_head in Hfiles'. subst closed'.
  rewrite Hd in Hfull, Hout.
  exists closed. unfold produced, BatchWriter_delete. cbn.
  rewrite Hfiles, <- app_assoc. split; [reflexivity|]. split; [exact Hfull|].
  split; [|exact Hframes].
  destruct (out_ (bw s')); [lia|tauto].
Qed.

(** Which frames each file of a returning run holds. *)
Lemma run_layout E dir docs zs (ps : list Blob) w s' :
  0 < docs < 2 ^ 64 ->
  write_all E ps (mkProc (BatchWriter_new dir docs zs) w) = (Ret tt, s') ->
  exists made,
    produced s' = files w ++ made /\
    forall (i : nat) f, made !! i = Some f ->
      file_frames f
      = map frame_of (take (Z.to_nat docs) (drop (i * Z.to_nat docs) ps)).
Proof.
  intros Hdocs Hrun.
  destruct (run_shape _ _ _ _ _ _ _ Hdocs Hrun)
    as (closed & Hmade & Hfull & Hout & Hframes).
  exists (closed ++ option_list (out_ (bw s'))). split; [exact Hmade|].
  set (made := closed ++ option_list (out_ (bw s'))) in *.
  intros i f Hi.
  rewrite <- firstn_map, <- skipn_map, <- Hframes.
  assert (Hfi : map file_frames made !! i = Some (file_frames f)).
  { change (map file_frames made) with (file_frames <$> made).
    rewrite list_lookup_fmap, Hi. reflexivity. }
  rewrite Forall_lookup in Hfull.
  assert (Hcl : forall j g, closed !! j = Some g ->
                  List.length (file_frames g) = Z.to_nat docs).
  { intros j g Hg. apply Hfull in Hg. unfold frame_count in Hg. lia. }
  assert (Hany : forall j g, made !! j = Some g ->
            (List.length (file_frames g) <= Z.to_nat docs)%nat /\
            ((S j < List.length made)%nat ->
             List.length (file_frames g) = Z.to_nat docs)).
  { intros j g Hg. subst made.
    apply lookup_app_Some in Hg as [Hg|[Hlen Hg]].
    - rewrite (Hcl _ _ Hg). split; [lia|auto].
    - destruct (out_ (bw s')) as [h|]; [|discriminate]. cbn in Hg.
      apply list_lookup_singleton_Some in Hg as [Hj <-].
      unfold frame_count in Hout. split; [lia|].
      rewrite length_app. cbn. lia. }
  apply concat_chunk_lookup; try exact Hfi.
  - intros j y Hj Hy.
    change (map file_frames made) with (file_frames <$> made) in Hy.
    rewrite list_lookup_fmap in Hy.
    destruct (made !! j) as [g|] eqn:Hg; [|discriminate].
    injection Hy as <-. apply (Hany j g Hg).
    apply lookup_lt_Some in Hi. lia.
  - apply (Hany i f Hi).
  - rewrite length_map. apply (Hany i f Hi).
Qed.

(** X8: with [docs] documents per file, the file number [i] of a run that
    returns (counted from 0, in the order of creation) holds the frames of
    the payloads number [i * docs] to [i * docs + docs - 1], in their
    order, as far as there are payloads. *)
Theorem X8_file_layout E dir docs zs (ps : list Blob) w s' :
  0 < docs < 2 ^ 64 ->
  write_all E ps (mkProc (BatchWriter_new dir docs zs) w) = (Ret tt, s') ->
  exists made,
    produced s' = files w ++ made /\
    forall (i : nat) f, made !! i = Some f ->
      file_frames f
      = map frame_of (take (Z.to_nat docs) (drop (i * Z.to_nat docs) ps)).
Proof. apply run_layout. Qed.

(** X23: each batch file can be read on its own.  In a run that returns,
    with payloads shorter than 4 GiB, the file number [i], decompressed and
    parsed as frames, gives the payloads number [i * docs] to
    [i * docs + docs - 1]: no frame lies across two files. *)
Theorem X23_each_file_parses_alone E dir docs zs (ps : list Blob) w s' :
  0 < docs < 2 ^ 64 ->
  Forall fits32 ps ->
  write_all E ps (mkProc (BatchWriter_new dir docs zs) w) = (Ret tt, s') ->
  exists made,
    produced s' = files w ++ made /\
    forall (i : nat) f, made !! i = Some f ->
      parse_frames (file_bytes f)
      = Some (take (Z.to_nat docs) (drop (i * Z.to_nat docs) ps)).
Proof.
  intros Hdocs Hfit Hrun.
  destruct (run_layout _ _ _ _ _ _ _ Hdocs Hrun) as (made & Hmade & Hlay).
  exists made. split; [exact Hmade|]. intros i f Hi.
  unfold file_bytes. rewrite (Hlay i f Hi).
  apply parse_frames_frames.
  apply Forall_take, Forall_drop, Hfit.
Qed.

(** X9: a run of [n] writes that returns makes [ceil (n / docs)] files. *)
Theorem X9_file_count E dir docs zs (ps : list Blob) w s' :
  0 < docs < 2 ^ 64 ->
  write_all E ps (mkProc (BatchWriter_new dir docs zs) w) = (Ret tt, s') ->
  exists made,
    produced s' = files w ++ made /\
    Z.of_nat (List.length made)
    = (Z.of_nat (List.length ps) + docs - 1) / docs.
Proof.
  intros Hdocs Hrun.
  destruct (run_shape _ _ _ _ _ _ _ Hdocs Hrun)
    as (closed & Hmade & Hfull & Hout & Hframes).
  exists (closed ++ option_list (out_ (bw s'))). split; [exact Hmade|].
  apply (f_equal (@List.length Frame)) in Hframes.
  rewrite length_map, map_app, concat_app, length_app in Hframes.
  rewrite (length_concat_full (Z.to_nat docs)) in Hframes.
  2: { apply Forall_map. eapply Forall_impl; [exact Hfull|].
       intros f Hf. unfold frame_count in Hf. cbn. lia. }
  rewrite length_map in Hframes. rewrite length_app.
  destruct (out_ (bw s')) as [f|]; cbn in Hframes |- *.
  - unfold frame_count in Hout. rewrite app_nil_r in Hframes.
    apply Z.div_unique with
      (r := Z.of_nat (List.length (file_frames f)) - 1); nia.
  - subst closed. cbn in *. symmetry. apply Z.div_small. lia.
Qed.

End Layout.

Section ZeroCapacity.
Context `{Platform}.

(** With no rotation due, a sequence of writes appends to the open file
    and cannot fail. *)
Lemma write_all_appends E : forall (rest : list Blob) s f,
  out_ (bw s) = Some f ->
  documents_ (bw s) = 0 ->
  1 <= written_ (bw s) ->
  written_ (bw s) + Z.of_nat (List.length rest) < 2 ^ 64 ->
  write_all E rest s =
  (Ret tt,
   mkProc (mkBatchWriter (output_dir_ (bw s)) 0 (zeroes_ (bw s))
             (curr_num_ (bw s))
             (Some (mkFile (file_path f) (file_frames f ++ map frame_of rest)))
             (written_ (bw s) + Z.of_nat (List.length rest)))
          (world s)).
Proof.
  induction rest as [|blob rest IH]; intros s f Hout Hdocs Hone Hlen.
  - destruct s as [[dir docs zs cur out wr] w]. cbn in *. subst.
    rewrite app_nil_r, Z.add_0_r. destruct f. reflexivity.
  - rewrite write_all_cons, write_unfold, Hdocs, Hout.
    destruct (Z.eqb_spec (written_ (bw s)) 0) as [H0|_]; [lia|].
    cbn [List.length] in Hlen.
    rewrite (IH (appended blob s f) _ eq_refl); cbn; try assumption.
    + rewrite size_incr_small by lia. rewrite <- app_assoc. cbn.
      do 3 f_equal. lia.
    + rewrite size_incr_small by lia. lia.
    + rewrite size_incr_small by lia. lia.
Qed.

(** X10: with a capacity of 0 the writer rotates at the first write only:
    a run that returns, of at least one and fewer than [2^64] writes,
    makes the file of index 1 and puts every frame in it. *)
Theorem X10_zero_capacity_single_file E dir zs (p : Blob) (rest : list Blob)
    w s' :
  Z.of_nat (List.length (p :: rest)) < 2 ^ 64 ->
  write_all E (p :: rest) (mkProc (BatchWriter_new dir 0 zs) w) = (Ret tt, s') ->
  produced s'
  = files w ++ [mkFile (path_join dir (file_name zs 1))
                  (map frame_of (p :: rest))].
Proof.
  intros Hlen. rewrite write_all_cons, write_unfold. cbn [bw BatchWriter_new
    written_ documents_ curr_num_ zeroes_ output_dir_ Z.eqb]. cbv zeta.
  change (size_incr 0) with 1.
  destruct (string_max_size <? _); [discriminate|].
  destruct (zstr_ofstream E _); [discriminate|].
  cbn [List.length] in Hlen.
  match goal with
  | |- context [write_all E rest ?st] =>
      rewrite (write_all_appends E rest st (mkFile _ [frame_of p]) eq_refl);
        cbn; try lia
  end.
  - intros [= <-]. unfold produced, BatchWriter_delete. cbn.
    rewrite app_nil_r. reflexivity.
  - change (size_incr 0) with 1. lia.
  - change (size_incr 0) with 1. lia.
Qed.

End ZeroCapacity.

(** X10 on three payloads. *)
Lemma X10_zero_capacity_single_file_witness :
  produced (snd (write_all (H := libstdcxx) (Env_ok []) (take 3 ten_blobs)
                   (mkProc (BatchWriter_new "out" 0 4) World_init)))
  = files World_init
    ++ [mkFile (path_join "out" (file_name 4 1))
          (map frame_of (take 3 ten_blobs))].
Proof.
  apply (X10_zero_capacity_single_file (H := libstdcxx) (Env_ok []) "out" 4
           [x01] [[x02]; [x03]] World_init).
  - cbn. lia.
  - vm_compute. reflexivity.
Defined.

(** X8 on five payloads at two documents per file. *)
Lemma X8_file_layout_witness :
  exists made,
    produced (snd (write_all (H := libstdcxx) (Env_ok []) (take 5 ten_blobs)
                     (mkProc (BatchWriter_new "out" 2 4) World_init)))
    = files World_init ++ made /\
    forall (i : nat) f, made !! i = Some f ->
      file_frames f
      = map frame_of (take (Z.to_nat 2) (drop (i * Z.to_nat 2)
                                           (take 5 ten_blobs))).
Proof.
  apply (X8_file_layout (H := libstdcxx) (Env_ok []) "out" 2 4
           (take 5 ten_blobs) World_init).
  - lia.
  - vm_compute. reflexivity.
Defined.

(** X9 on five payloads at two documents per file: three files. *)
Lemma X9_file_count_witness :
  exists made,
    produced (snd (write_all (H := libstdcxx) (Env_ok []) (take 5 ten_blobs)
                     (mkProc (BatchWriter_new "out" 2 4) World_init)))
    = files World_init ++ made /\
    Z.of_nat (List.length made)
    = (Z.of_nat (List.length (take 5 ten_blobs)) + 2 - 1) / 2.
Proof.
  apply (X9_file_count (H := libstdcxx) (Env_ok []) "out" 2 4
           (take 5 ten_blobs) World_init).
  - lia.
  - vm_compute. reflexivity.
Defined.

(** ** The filter and the writer together *)

Section Pipeline.
Context `{Platform}.

(** [write] looks at the writer and the batch files only. *)
Lemma write_same_output E blob s1 s2 :
  same_output s1 s2 ->
  fst (write E blob s1) = fst (write E blob s2) /\
  same_output (snd (write E blob s1)) (snd (write E blob s2)).
Proof.
  destruct s1 as [b1 w1], s2 as [b2 w2]. intros [Hb Hf]. cbn in Hb, Hf. subst b2.
  rewrite !write_unfold. cbn [bw world].
  destruct (written_ b1 =? documents_ b1); cbv zeta.
  - destruct (string_max_size <? _); [split; [reflexivity|split; [reflexivity|exact Hf]]|].
    destruct (zstr_ofstream E _);
      [split; [reflexivity|split; [reflexivity|exact Hf]]|].
    split; [reflexivity|]. split; [reflexivity|]. cbn. now rewrite Hf.
  - destruct (out_ b1); split; try reflexivity; split; try reflexivity; exact Hf.
Qed.

Lemma same_output_cerr s1 s2 line :
  same_output s1 s2 ->
  same_output (mkProc (bw s1) (set_cerr (cerr (world s1) ++ [line]) (world s1))) s2.
Proof. intros [Hb Hf]. split; assumption. Qed.

(** An article that is not admitted costs a line of [std::cerr], no
    more. *)
Lemma loop_body_dropped E pattern it doc_no s :
  admits pattern it = false ->
  exists line,
    loop_body E pattern it doc_no s
    = (Ret doc_no,
       mkProc (bw s) (set_cerr (cerr (world s) ++ [line]) (world s))).
Proof.
  unfold admits. rewrite loop_body_dispose.
  destruct (classify it pattern); try discriminate; intros _;
    unfold dispose, bind; rewrite in_world_cerr_endl; eauto.
Qed.

(** An admitted article is written, after one or two lines of
    [std::cerr]. *)
Lemma loop_body_admitted E pattern it doc_no s1 s2 :
  admits pattern it = true ->
  same_output s1 s2 ->
  void (fst (loop_body E pattern it doc_no s1)) = fst (write E (getData it) s2) /\
  same_output (snd (loop_body E pattern it doc_no s1))
    (snd (write E (getData it) s2)).
Proof.
  unfold admits. rewrite loop_body_dispose.
  destruct (classify it pattern); try discriminate; intros _ Hsame.
  unfold dispose, bind.
  destruct (_ =? 0); unfold ret; rewrite ?in_world_cerr_endl;
    match goal with
    | |- context [write E ?b ?st] =>
        assert (Hst : same_output st s2)
          by (repeat apply same_output_cerr; exact Hsame);
        destruct (write_same_output E b st s2 Hst) as [Hr Hs];
        destruct (write E b st) as [r1 st1]
    end;
    cbn [fst snd] in *; rewrite <- Hr;
    destruct r1 as [[]| | |]; cbn [void fst snd]; split;
      solve [reflexivity | exact Hs].
Qed.

Lemma loop_cons E pattern it rest doc_no s :
  loop E pattern (inr it :: rest) doc_no s =
  match loop_body E pattern it doc_no s with
  | (Ret d, s') => loop E pattern rest d s'
  | (Throw e, s') => (Throw e, s')
  | (Exit c, s') => (Exit c, s')
  | (Undefined, s') => (Undefined, s')
  end.
Proof. reflexivity. Qed.

(** The loop over an archive that iterates without failure does to the
    writer and the files what [write_all] does on the admitted payloads. *)
Lemma loop_write_all E pattern (arts : list Article) : forall doc_no s1 s2,
  same_output s1 s2 ->
  fst (loop E pattern (map inr arts) doc_no s1)
  = fst (write_all E (admitted pattern arts) s2) /\
  same_output (snd (loop E pattern (map inr arts) doc_no s1))
    (snd (write_all E (admitted pattern arts) s2)).
Proof.
  induction arts as [|it arts IH]; intros doc_no s1 s2 Hsame.
  - cbn. auto.
  - cbn [map]. rewrite loop_cons. unfold admitted. cbn [List.filter].
    destruct (admits pattern it) eqn:Hadm.
    + cbn [map]. fold (admitted pattern arts). rewrite write_all_cons.
      destruct (loop_body_admitted E pattern it doc_no s1 s2 Hadm Hsame)
        as [Hr Hs].
      destruct (loop_body E pattern it doc_no s1) as [r1 st1].
      destruct (write E (getData it) s2) as [r2 st2].
      cbn [fst snd] in Hr, Hs. subst r2.
      destruct r1 as [d| | |]; cbn [void fst snd];
        [apply IH; exact Hs|split; [reflexivity|exact Hs]..].
    + fold (admitted pattern arts).
      destruct (loop_body_dropped E pattern it doc_no s1 Hadm) as [line Hb].
      rewrite Hb. apply IH. now apply same_output_cerr.
Qed.

(** The files of [main] when the configuration is complete, the language
    is in the table, the archive opens and iterates without failure and
    the directory can be made. *)
Lemma main_files E args w input dir pattern (arts : list Article) :
  count_help args = 0%nat ->
  input_file args = Some input ->
  output_dir args = Some dir ->
  zim_File E input = inr (map inr arts) ->
  create_directory E dir = None ->
  disambig w !! language args = Some pattern ->
  fst (main E (inr args) w) = Ret 0 /\
  files (snd (main E (inr args) w))
  = produced (snd (write_all E (admitted pattern arts)
                     (mkProc (BatchWriter_new dir (documents args)
                                (zeroes args)) w))).
Proof.
  intros Hhelp Hin Hout Hzim Hmk Hlang.
  rewrite main_unfold, parse_unfold, Hhelp, Hin, Hout, Hlang. cbn [Nat.ltb
    Nat.leb count_of Nat.eqb orb]. rewrite Hout. cbv zeta.
  destruct (try_block E args _) as [r s'] eqn:Htry.
  pose proof (try_block_completes _ _ _ _ _ _ Htry) as Hr.
  revert Htry.
  unfold try_block, bind, as_string, zim_File_new, fs_create_directory,
    in_world, ret, modify.
  rewrite Hin, Hzim, Hout, Hmk. cbn [world bw fst snd].
  rewrite disambig_index_spec. cbn [disambig set_dirs]. rewrite Hlang.
  intros Hloop.
  match type of Hloop with
  | loop E pattern _ 0 ?s0 = _ =>
      destruct (loop_write_all E pattern arts 0 s0
                  (mkProc (BatchWriter_new dir (documents args) (zeroes args)) w))
        as [_ [Hb Hf]]; [split; reflexivity|]
  end.
  rewrite Hloop in Hb, Hf. cbn [snd] in Hb, Hf.
  unfold produced, BatchWriter_delete, reported.
  destruct r as [[]|e|c|]; try contradiction; cbn; rewrite Hb, Hf; auto.
Qed.

End Pipeline.

Section PipelineProperties.
Context `{Platform}.

(** X12: when the configuration is complete, the language is in the
    table, the archive opens and iterates without failure and the output
    directory can be made, [main] returns 0 and leaves the batch files that
    the writer makes of the payloads of the admitted articles, taken in the
    order of the archive: the dropped articles leave no trace in the files,
    and a write that throws ends the run with the files made so far. *)
Theorem X12_main_writes_the_admitted E args w input dir pattern
    (arts : list Article) :
  count_help args = 0%nat ->
  input_file args = Some input ->
  output_dir args = Some dir ->
  zim_File E input = inr (map inr arts) ->
  create_directory E dir = None ->
  disambig w !! language args = Some pattern ->
  fst (main E (inr args) w) = Ret 0 /\
  files (snd (main E (inr args) w))
  = produced (snd (write_all E (admitted pattern arts)
                     (mkProc (BatchWriter_new dir (documents args)
                                (zeroes args)) w))).
Proof. apply main_files. Qed.

(** The bytes of the files of a sequence of writes that returns. *)
Lemma run_bytes E dir docs zs (ps : list Blob) w s' :
  write_all E ps (mkProc (BatchWriter_new dir docs zs) w) = (Ret tt, s') ->
  exists made,
    produced s' = files w ++ made /\
    concat (map file_bytes made) = stream_bytes (map frame_of ps).
Proof.
  intros Hrun.
  destruct (frames_inv_write_all E (files w) ps [] _ _ _
              (frames_inv_new _ dir docs zs w eq_refl) Hrun)
    as (written & rest & Hps & Hinv & ->).
  rewrite app_nil_r in Hps. subst written. cbn in Hinv.
  now apply frames_inv_produced.
Qed.

(** X13: the round trip of the whole program.  Under the conditions of
    X12, in an output directory without earlier batch files, when every
    admitted payload is shorter than 4 GiB and every write returns, the
    batch files of [main], decompressed, joined in the order of their
    creation and parsed as frames, are the payloads of the admitted
    articles in the order of the archive. *)
Theorem X13_main_roundtrip E args w input dir pattern (arts : list Article) :
  count_help args = 0%nat ->
  input_file args = Some input ->
  output_dir args = Some dir ->
  zim_File E input = inr (map inr arts) ->
  create_directory E dir = None ->
  disambig w !! language args = Some pattern ->
  files w = [] ->
  Forall fits32 (admitted pattern arts) ->
  fst (write_all E (admitted pattern arts)
         (mkProc (BatchWriter_new dir (documents args) (zeroes args)) w))
  = Ret tt ->
  parse_frames (concat (map file_bytes (files (snd (main E (inr args) w)))))
  = Some (admitted pattern arts).
Proof.
  intros Hhelp Hin Hout Hzim Hmk Hlang Hnone Hfit Hret.
  destruct (main_files E args w input dir pattern arts Hhelp Hin Hout Hzim
              Hmk Hlang) as [_ ->].
  destruct (write_all E (admitted pattern arts) _) as [r s'] eqn:Hrun.
  cbn [fst snd] in *. subst r.
  destruct (run_bytes _ _ _ _ _ _ _ Hrun) as (made & Hmade & Hbytes).
  rewrite Hmade, Hnone. cbn [app]. rewrite Hbytes.
  now apply parse_frames_frames.
Qed.

(** Under the empty pattern no article is admitted. *)
Lemma admits_empty_pattern it : admits "" it = false.
Proof.
  unfold admits, classify.
  destruct (negb _); [reflexivity|].
  destruct (isRedirect it); [reflexivity|].
  destruct (isDeleted it); [reflexivity|].
  rewrite find_empty. reflexivity.
Qed.

Lemma loop_empty_pattern E (f : list (exception + Article)) :
  forall doc_no s r s',
  loop E "" f doc_no s = (r, s') -> same_output s' s /\ completes r.
Proof.
  induction f as [|[e|it] rest IH]; intros doc_no s r s'.
  - cbn. intros [= <- <-]. repeat split.
  - cbn. intros [= <- <-]. repeat split.
  - rewrite loop_cons.
    destruct (loop_body_dropped E "" it doc_no s (admits_empty_pattern it))
      as [line ->].
    intros Hloop. apply IH in Hloop as [[Hb Hf] Hr].
    repeat split; assumption.
Qed.

(** X14: when the language is not in the table, [main] opens no batch
    file, whatever the archive holds and whatever else succeeds or fails:
    the batch files after the run are those before it. *)
Theorem X14_unsupported_language_writes_nothing E args w :
  disambig w !! language args = None ->
  files (snd (main E (inr args) w)) = files w.
Proof.
  intros Hlang. rewrite main_unfold.
  destruct (parse E (inr args) w) as [r w1] eqn:Hparse.
  destruct (parse_streams_only _ _ _ _ _ Hparse) as (Htable & _ & Hfiles).
  destruct r as [a|e1|c|]; cbn [snd]; auto.
  apply parse_returns in Hparse as ([= <-] & _).
  destruct (output_dir args) as [dir|] eqn:Hdir; cbn [snd]; auto. cbv zeta.
  destruct (try_block E args _) as [r s'] eqn:Htry.
  assert (Hs' : out_ (bw s') = None /\ files (world s') = files w1).
  { revert Htry.
    unfold try_block, bind, as_string, zim_File_new, fs_create_directory,
      in_world, ret, throw, modify.
    destruct (input_file args); [|intros [= <- <-]; auto].
    destruct (zim_File E _); [intros [= <- <-]; auto|].
    rewrite Hdir.
    destruct (create_directory E _); [intros [= <- <-]; auto|].
    cbn [world bw fst snd]. rewrite disambig_index_spec.
    cbn [disambig set_dirs]. rewrite Htable, Hlang.
    intros Hloop. apply loop_empty_pattern in Hloop as [[Hb Hf] _].
    rewrite Hb, Hf. auto. }
  destruct Hs' as [Hnone Hf].
  pose proof (try_block_completes _ _ _ _ _ _ Htry) as Hr.
  destruct r as [[]|e|c|]; try contradiction;
    unfold BatchWriter_delete, reported; cbn; rewrite Hnone, Hf, Hfiles;
    apply app_nil_r.
Qed.

(** X15: without the help option, a command line that lacks the input
    file or the output directory makes [main] print one line on the
    standard output and exit with status 1; nothing else changes. *)
Theorem X15_missing_required_option_exits_1 E args w :
  count_help args = 0%nat ->
  input_file args = None \/ output_dir args = None ->
  main E (inr args) w
  = (Exit 1, set_cout (cout w ++ ["Both -i and -o must be specified."]) w).
Proof.
  intros Hhelp Hmiss. rewrite main_unfold, parse_unfold, Hhelp.
  destruct Hmiss as [-> | ->]; [reflexivity|].
  destruct (input_file args); reflexivity.
Qed.

(** X16: when cxxopts rejects the command line with an
    [OptionException], [main] prints its message on the error stream, after
    "Error parsing options: ", and exits with status 1; nothing else
    changes. *)
Theorem X16_option_exception_exits_1 E e w :
  exn_kind e = OptionException ->
  main E (inl e) w
  = (Exit 1, set_cerr (cerr w ++ ["Error parsing options: " +:+ what e]) w).
Proof.
  intros He. rewrite main_unfold, parse_unfold, He. reflexivity.
Qed.

(** X17: as long as the exceptions of cxxopts are [OptionException]s, the
    process ends in one of three ways whatever its inputs and whatever
    fails: [main] returns 0, or [exit(0)], or [exit(1)].  No exception
    leaves [main] and [out_] is never used while null. *)
Theorem X17_process_ends_with_0_or_1 E declared cl w :
  (forall e, declared = Some e -> exn_kind e = OptionException) ->
  option_exception_only cl ->
  fst (process E declared cl w) = Ret 0 \/
  fst (process E declared cl w) = Exit 0 \/
  fst (process E declared cl w) = Exit 1.
Proof.
  intros Hdecl Hcl. unfold process, bind, ArgumentParser_new, try_catch.
  destruct declared as [e|]; cbn.
  { rewrite (Hdecl e eq_refl). cbn. auto. }
  rewrite main_unfold.
  destruct (parse E cl w) as [r w1] eqn:Hparse.
  destruct r as [args|e|c|].
  - destruct (parse_returns _ _ _ _ _ Hparse) as (_ & _ & _ & [dir Hdir] & _).
    rewrite Hdir. cbv zeta.
    destruct (try_block E args _) as [r s'] eqn:Htry.
    pose proof (try_block_completes _ _ _ _ _ _ Htry) as Hr.
    destruct r as [[]|e|c|]; try contradiction; cbn; auto.
  - exfalso. revert Hparse. rewrite parse_unfold.
    destruct cl as [e0|a]; cbn in Hcl.
    + rewrite Hcl. discriminate.
    + repeat match goal with
             | |- context [if ?b then _ else _] => destruct b
             end; discriminate.
  - revert Hparse. rewrite parse_unfold.
    destruct cl as [e0|a]; cbn in Hcl.
    + rewrite Hcl. cbn. intros [= <- <-]. cbn. auto.
    + repeat match goal with
             | |- context [if ?b then _ else _] => destruct b
             end; intros [= <- <-]; cbn; auto.
  - exfalso. revert Hparse. rewrite parse_unfold.
    destruct cl as [e0|a]; cbn in Hcl.
    + rewrite Hcl. discriminate.
    + repeat match goal with
             | |- context [if ?b then _ else _] => destruct b
             end; discriminate.
Qed.

End PipelineProperties.

(** ** The properties above on concrete inputs *)

(** The round trip on five payloads at two documents per file. *)
Lemma framing_roundtrip_witness :
  exists made,
    produced (snd (write_all (H := libstdcxx) (Env_ok []) (take 5 ten_blobs)
                     (mkProc (BatchWriter_new "out" 2 4) World_init)))
    = files World_init ++ made /\
    parse_frames (concat (map file_bytes made)) = Some (take 5 ten_blobs).
Proof.
  apply (framing_roundtrip (H := libstdcxx) (Env_ok []) "out" 2 4
           (take 5 ten_blobs) World_init).
  - repeat constructor.
  - vm_compute. reflexivity.
Defined.


Lemma file_indices_from_one_witness :
  exists made,
    produced (snd (write_all (H := libstdcxx) (Env_ok []) (take 5 ten_blobs)
                     (mkProc (BatchWriter_new "out" 2 4) World_init)))
    = files World_init ++ made /\
    map file_path made
    = map (fun i => path_join "out" (file_name 4 (wrap64 (Z.of_nat i))))
        (seq 1 (List.length made)).
Proof.
  apply (file_indices_from_one (H := libstdcxx) (Env_ok []) "out" 2 4
           (take 5 ten_blobs) World_init).
  vm_compute. reflexivity.
Defined.

Lemma file_paths_distinct_witness :
  exists made,
    produced (snd (write_all (H := libstdcxx) (Env_ok []) (take 5 ten_blobs)
                     (mkProc (BatchWriter_new "out" 2 4) World_init)))
    = files World_init ++ made /\
    (Z.of_nat (List.length made) < 2 ^ 64 -> NoDup (map file_path made)).
Proof.
  apply (file_paths_distinct (H := libstdcxx) (Env_ok []) "out" 2 4
           (take 5 ten_blobs) World_init).
  - lia.
  - vm_compute. reflexivity.
Defined.

(** With a width of 0 the first write already throws. *)
Lemma write_throws_on_wide_index_witness :
  write (H := libstdcxx) (Env_ok []) [x01]
    (mkProc (BatchWriter_new "out" 2500 0) World_init)
  = (Throw (mkExn LengthError "basic_string::_M_create"),
     set_curr_num (size_incr 0)
       (mkProc (BatchWriter_new "out" 2500 0) World_init)).
Proof.
  apply (write_throws_on_wide_index (H := libstdcxx) (Env_ok []) [x01]
           (mkProc (BatchWriter_new "out" 2500 0) World_init)).
  - reflexivity.
  - vm_compute. split; [discriminate|reflexivity].
Defined.

Lemma table_unchanged_when_supported_witness :
  disambig (snd (main (H := libstdcxx) (Env_ok ten_articles)
                   (inr (args_of "en" 2 4)) World_init))
  = disambig World_init.
Proof.
  apply (table_unchanged_when_supported (H := libstdcxx) (Env_ok ten_articles)
           (args_of "en" 2 4) World_init "(disambiguation)").
  reflexivity.
Defined.

Lemma X12_main_writes_the_admitted_witness :
  let arts := [budapest; mkArticle "B" "A" true false [x0b];
               mkArticle "C" "A" false false [x0c]] in
  fst (main (H := libstdcxx) (Env_ok (map inr arts)) (inr (args_of "en" 2 4))
         World_init) = Ret 0 /\
  files (snd (main (H := libstdcxx) (Env_ok (map inr arts))
                (inr (args_of "en" 2 4)) World_init))
  = produced (snd (write_all (H := libstdcxx) (Env_ok (map inr arts))
                     (admitted "(disambiguation)" arts)
                     (mkProc (BatchWriter_new "out" 2 4) World_init))).
Proof.
  cbv zeta.
  apply (X12_main_writes_the_admitted (H := libstdcxx) _ (args_of "en" 2 4)
           World_init "wiki.zim" "out" "(disambiguation)"); reflexivity.
Defined.

Lemma X13_main_roundtrip_witness :
  let arts := [budapest; mkArticle "B" "A" true false [x0b];
               mkArticle "C" "A" false false [x0c]] in
  parse_frames
    (concat (map file_bytes
               (files (snd (main (H := libstdcxx) (Env_ok (map inr arts))
                              (inr (args_of "en" 2 4)) World_init)))))
  = Some (admitted "(disambiguation)" arts).
Proof.
  cbv zeta.
  apply (X13_main_roundtrip (H := libstdcxx) _ (args_of "en" 2 4)
           World_init "wiki.zim" "out" "(disambiguation)");
    try reflexivity.
  repeat constructor.
Defined.

Lemma X14_unsupported_language_writes_nothing_witness :
  files (snd (main (H := libstdcxx) (Env_ok ten_articles)
                (inr (args_of "de" 2 4)) World_init))
  = files World_init.
Proof.
  apply (X14_unsupported_language_writes_nothing (H := libstdcxx)
           (Env_ok ten_articles) (args_of "de" 2 4) World_init).
  reflexivity.
Defined.

Lemma X15_missing_required_option_exits_1_witness :
  let args := mkParseResult 0 (Some "wiki.zim") None "hu" 2500 4 in
  main (H := libstdcxx) (Env_ok []) (inr args) World_init
  = (Exit 1,
     set_cout (cout World_init ++ ["Both -i and -o must be specified."])
       World_init).
Proof.
  cbv zeta.
  apply (X15_missing_required_option_exits_1 (H := libstdcxx) (Env_ok [])
           (mkParseResult 0 (Some "wiki.zim") None "hu" 2500 4) World_init).
  - reflexivity.
  - right. reflexivity.
Defined.

Lemma X16_option_exception_exits_1_witness :
  let e := mkExn OptionException "Option 'x' does not exist" in
  main (H := libstdcxx) (Env_ok []) (inl e) World_init
  = (Exit 1,
     set_cerr (cerr World_init ++ ["Error parsing options: " +:+ what e])
       World_init).
Proof.
  cbv zeta.
  apply (X16_option_exception_exits_1 (H := libstdcxx) (Env_ok [])
           (mkExn OptionException "Option 'x' does not exist") World_init).
  reflexivity.
Defined.

Lemma X17_process_ends_with_0_or_1_witness :
  let run := process (H := libstdcxx) (Env_ok ten_articles) None
               (inr (args_of "en" 1 1)) World_init in
  fst run = Ret 0 \/ fst run = Exit 0 \/ fst run = Exit 1.
Proof.
  cbv zeta.
  apply (X17_process_ends_with_0_or_1 (H := libstdcxx) (Env_ok ten_articles)
           None (inr (args_of "en" 1 1)) World_init).
  - intros e He. discriminate He.
  - exact I.
Defined.

(** ** The names of the batch files *)

Lemma digit_char_is_digit d : 0 <= d < 10 -> is_digit (digit_char d).
Proof. intros Hd. unfold is_digit. rewrite digit_value_digit_char; lia. Qed.

Lemma to_string_fuel_digits fuel : forall n acc,
  all_digits acc -> all_digits (to_string_fuel fuel n acc).
Proof.
  induction fuel as [|fuel IH]; intros n acc Hacc; [exact Hacc|].
  rewrite to_string_fuel_S.
  assert (Hd : all_digits (String (digit_char (n mod 10)) acc)).
  { split; [|exact Hacc]. apply digit_char_is_digit, Z.mod_pos_bound. lia. }
  destruct (n / 10 =? 0); [exact Hd|]. now apply IH.
Qed.

Lemma all_digits_app (a b : string) :
  all_digits a -> all_digits b -> all_digits (a +:+ b).
Proof.
  induction a as [|c a IH]; intros Ha Hb; [exact Hb|].
  change (String c a +:+ b) with (String c (a +:+ b)).
  destruct Ha as [Hc Ha]. split; [exact Hc|]. now apply IH.
Qed.

Lemma all_digits_zeroes k : all_digits (string_rep k "0").
Proof.
  induction k as [|k IH]; [exact I|]. split; [|exact IH].
  unfold is_digit. change (digit_value "0") with 0. lia.
Qed.

Lemma decimal_value_bound (s : string) :
  all_digits s -> 0 <= decimal_value s < 10 ^ Z.of_nat (String.length s).
Proof.
  induction s as [|c s IH]; intros Hs; [cbn; lia|].
  destruct Hs as [Hc Hs]. specialize (IH Hs). unfold is_digit in Hc.
  cbn [decimal_value String.length].
  rewrite Nat2Z.inj_succ, Z.pow_succ_r by lia. nia.
Qed.

(** Of two strings of digits of the same length, the one that stands
    for the lesser number comes first in the order of the bytes. *)
Lemma compare_digits : forall a b : string,
  String.length a = String.length b ->
  all_digits a -> all_digits b ->
  decimal_value a < decimal_value b ->
  String.compare a b = Lt.
Proof.
  induction a as [|c a IH]; intros [|d b] Hlen Ha Hb Hlt;
    try discriminate Hlen.
  - cbn in Hlt. lia.
  - destruct Ha as [Hc Ha], Hb as [Hd Hb]. injection Hlen as Hlen.
    pose proof (decimal_value_bound a Ha) as Hba.
    pose proof (decimal_value_bound b Hb) as Hbb.
    cbn [decimal_value] in Hlt. rewrite Hlen in Hlt, Hba.
    unfold is_digit, digit_value, nat_of_ascii in *.
    cbn [String.compare]. unfold Ascii.compare.
    destruct (N.compare_spec (N_of_ascii c) (N_of_ascii d)) as [Heq|Hcd|Hdc].
    + apply IH; try assumption. rewrite Heq in Hlt. lia.
    + reflexivity.
    + exfalso. nia.
Qed.

Lemma compare_app_suffix : forall a b s : string,
  String.length a = String.length b ->
  String.compare a b = Lt ->
  String.compare (a +:+ s) (b +:+ s) = Lt.
Proof.
  induction a as [|c a IH]; intros [|d b] s Hlen Hcmp;
    try discriminate Hlen; try discriminate Hcmp.
  change (String c a +:+ s) with (String c (a +:+ s)).
  change (String d b +:+ s) with (String d (b +:+ s)).
  cbn [String.compare] in *.
  destruct (Ascii.compare c d); try assumption.
  apply IH; [now injection Hlen|assumption].
Qed.

Lemma string_app_assoc (a b c : string) : (a +:+ b) +:+ c = a +:+ (b +:+ c).
Proof.
  induction a as [|x a IH]; [reflexivity|].
  change ((String x a +:+ b) +:+ c) with (String x ((a +:+ b) +:+ c)).
  now rewrite IH.
Qed.

(** X18: the names sort as the indices do.  For a width that the digits
    of two indices fit, the name of the lesser index comes first in the
    order of the bytes ([std::string]'s [<]): this is what the padding
    with zeroes is for. *)
Theorem X18_names_sort_by_index zs a b :
  0 <= a < b -> b < 2 ^ 64 ->
  string_size (to_string a) <= zs < 2 ^ 64 ->
  string_size (to_string b) <= zs < 2 ^ 64 ->
  String.ltb (file_name zs a) (file_name zs b) = true.
Proof.
  intros Hab Hb Hfa Hfb.
  rewrite (proj1 (file_name_padded zs a Hfa)),
    (proj1 (file_name_padded zs b Hfb)).
  rewrite <- !string_app_assoc.
  unfold String.ltb. rewrite compare_app_suffix; [reflexivity| |].
  - unfold string_size in *.
    rewrite !string_length_append, !string_rep_length. lia.
  - apply compare_digits.
    + unfold string_size in *.
      rewrite !string_length_append, !string_rep_length. lia.
    + apply all_digits_app; [apply all_digits_zeroes|].
      now apply to_string_fuel_digits.
    + apply all_digits_app; [apply all_digits_zeroes|].
      now apply to_string_fuel_digits.
    + rewrite !decimal_value_app, !decimal_value_zeroes, !to_string_value by lia.
      lia.
Qed.

Lemma X18_names_sort_by_index_witness :
  String.ltb (file_name 4 9) (file_name 4 10) = true.
Proof.
  apply (X18_names_sort_by_index 4 9 10); vm_compute; split; congruence.
Defined.

Section NameWidth.
Context `{Platform}.

(** X7: in a run that returns, of fewer than [2^64] files, the file
    number [i] (counted from 0) is named for the index [i + 1]: the digits
    of the index fit the width, and the name is the index padded with
    zeroes on the left to exactly [zeroes] digits, then [.htmls.gz]. *)
Theorem X7_names_are_padded E dir docs zs (ps : list Blob) w s' :
  0 <= zs < 2 ^ 64 ->
  write_all E ps (mkProc (BatchWriter_new dir docs zs) w) = (Ret tt, s') ->
  exists made,
    produced s' = files w ++ made /\
    (Z.of_nat (List.length made) < 2 ^ 64 ->
     forall (i : nat) f, made !! i = Some f ->
       let idx := Z.of_nat i + 1 in
       string_size (to_string idx) <= zs /\
       file_path f
       = path_join dir
           (string_rep (Z.to_nat (zs - string_size (to_string idx))) "0"
            +:+ to_string idx +:+ ".htmls.gz") /\
       string_size (file_name zs idx) = zs + 9).
Proof.
  intros Hzs Hrun.
  destruct (names_inv_write_all E (files w) ps _ _
              (names_inv_new _ dir docs zs w eq_refl) Hrun)
    as ((closed & Hfiles & _ & Hnames) & Hdir & Hzs').
  destruct (widths_inv_write_all E (files w) ps
              (mkProc (BatchWriter_new dir docs zs) w) s' Hzs
              (widths_inv_new _ dir docs zs w eq_refl) Hrun)
    as ((closed' & Hfiles' & _ & Hfit) & _).
  rewrite Hfiles in Hfiles'. apply app_inv_head in Hfiles'. subst closed'.
  cbn in Hdir, Hzs'. cbv zeta in Hnames, Hfit. rewrite Hdir, Hzs' in *.
  exists (closed ++ option_list (out_ (bw s'))).
  unfold produced, BatchWriter_delete. cbn [files close_file].
  rewrite Hfiles, <- app_assoc. split; [reflexivity|].
  set (made := closed ++ option_list (out_ (bw s'))) in *.
  intros Hlen i f Hi. cbv zeta.
  pose proof (lookup_lt_Some _ _ _ Hi) as Hlt.
  assert (Hwrap : wrap64 (Z.of_nat (S i)) = Z.of_nat i + 1).
  { unfold wrap64. rewrite Z.mod_small; lia. }
  pose proof (Hfit (S i) ltac:(lia)) as Hfi. rewrite Hwrap in Hfi.
  assert (Hpath : map file_path made !! i = Some (file_path f)).
  { change (map file_path made) with (file_path <$> made).
    rewrite list_lookup_fmap, Hi. reflexivity. }
  rewrite Hnames in Hpath.
  change (map ?g (seq 1 (List.length made)))
    with (g <$> seq 1 (List.length made)) in Hpath.
  rewrite list_lookup_fmap, lookup_seq_lt in Hpath by lia.
  cbn in Hpath. injection Hpath as Hpath.
  change (Z.pos (Pos.of_succ_nat i)) with (Z.of_nat (S i)) in Hpath.
  rewrite Hwrap in Hpath.
  destruct (file_name_padded zs (Z.of_nat i + 1) ltac:(lia)) as [Hname Hsize].
  split; [exact Hfi|]. split; [|exact Hsize].
  rewrite <- Hpath, <- Hname. reflexivity.
Qed.

End NameWidth.

Lemma X7_names_are_padded_witness :
  exists made,
    produced (snd (write_all (H := libstdcxx) (Env_ok []) (take 5 ten_blobs)
                     (mkProc (BatchWriter_new "out" 2 4) World_init)))
    = files World_init ++ made /\
    (Z.of_nat (List.length made) < 2 ^ 64 ->
     forall (i : nat) f, made !! i = Some f ->
       let idx := Z.of_nat i + 1 in
       string_size (to_string idx) <= 4 /\
       file_path f
       = path_join "out"
           (string_rep (Z.to_nat (4 - string_size (to_string idx))) "0"
            +:+ to_string idx +:+ ".htmls.gz") /\
       string_size (file_name 4 idx) = 4 + 9).
Proof.
  apply (X7_names_are_padded (H := libstdcxx) (Env_ok []) "out" 2 4
           (take 5 ten_blobs) World_init).
  - lia.
  - vm_compute. reflexivity.
Defined.

(** ** Failures on the way *)

Section Failures.
Context `{Platform}.

(** X19: a run that ends in [exit] has touched nothing but the two
    streams: it has made no directory, opened no batch file and left the
    table as it was. *)
Theorem X19_exit_leaves_no_output E cl w c :
  fst (main E cl w) = Exit c ->
  dirs (snd (main E cl w)) = dirs w /\
  files (snd (main E cl w)) = files w /\
  disambig (snd (main E cl w)) = disambig w.
Proof.
  rewrite main_unfold.
  destruct (parse E cl w) as [r w1] eqn:Hparse.
  destruct (parse_streams_only _ _ _ _ _ Hparse) as (Htable & Hdirs & Hfiles).
  destruct r as [args|e|c1|]; cbn [fst snd]; try discriminate; auto.
  destruct (output_dir args) as [dir|]; [|discriminate]. cbv zeta.
  destruct (try_block E args _) as [r s'] eqn:Htry.
  pose proof (try_block_completes _ _ _ _ _ _ Htry) as Hr.
  destruct r as [[]|e|c1|]; try contradiction; discriminate.
Qed.

(** X20: when the output directory cannot be made, no batch file is
    opened and no article is read: [main] reports the message of the
    exception on the error stream and returns 0. *)
Theorem X20_directory_failure E args w input dir f e :
  count_help args = 0%nat ->
  input_file args = Some input ->
  output_dir args = Some dir ->
  zim_File E input = inr f ->
  create_directory E dir = Some e ->
  fst (main E (inr args) w) = Ret 0 /\
  cerr (snd (main E (inr args) w)) = cerr w ++ [what e] /\
  dirs (snd (main E (inr args) w)) = dirs w /\
  files (snd (main E (inr args) w)) = files w.
Proof.
  intros Hhelp Hin Hout Hzim Hmk.
  rewrite main_unfold.
  destruct (parse E (inr args) w) as [r w1] eqn:Hparse.
  destruct (parse_streams_only _ _ _ _ _ Hparse) as (_ & Hdirs & Hfiles).
  revert Hparse. rewrite parse_unfold, Hhelp, Hin, Hout.
  cbn [Nat.ltb Nat.leb count_of Nat.eqb orb].
  assert (Htry : forall w1,
            try_block E args
              (mkProc (BatchWriter_new dir (documents args) (zeroes args)) w1)
            = (Throw e,
               mkProc (BatchWriter_new dir (documents args) (zeroes args)) w1)).
  { intros w0. unfold try_block, bind, as_string, zim_File_new,
      fs_create_directory, ret, throw.
    rewrite Hin, Hzim, Hout, Hmk. reflexivity. }
  destruct (_ =? 0)%nat; intros [= <- <-]; rewrite Hout; cbv zeta;
    rewrite Htry; cbn; rewrite ?app_nil_r; auto.
Qed.

(** The loop up to a step of the iteration that throws. *)
Lemma loop_until_failure E pattern (arts : list Article) e rest :
  forall doc_no s1 s2 s2',
  same_output s1 s2 ->
  write_all E (admitted pattern arts) s2 = (Ret tt, s2') ->
  exists s1',
    loop E pattern (map inr arts ++ inl e :: rest) doc_no s1 = (Throw e, s1') /\
    same_output s1' s2' /\
    exists lines, cerr (world s1') = cerr (world s1) ++ lines.
Proof.
  induction arts as [|it arts IH]; intros doc_no s1 s2 s2' Hsame Hrun.
  - cbn in Hrun. injection Hrun as <-. exists s1. cbn.
    split; [reflexivity|]. split; [exact Hsame|]. exists []. now rewrite app_nil_r.
  - cbn [map app]. rewrite loop_cons.
    revert Hrun. unfold admitted. cbn [List.filter].
    destruct (admits pattern it) eqn:Hadm.
    + cbn [map]. fold (admitted pattern arts). rewrite write_all_cons.
      destruct (loop_body_admitted E pattern it doc_no s1 s2 Hadm Hsame)
        as [Hr Hs].
      assert (Hcerr : exists lines,
                cerr (world (snd (loop_body E pattern it doc_no s1)))
                = cerr (world s1) ++ lines).
      { rewrite loop_body_dispose. revert Hadm. unfold admits.
        destruct (classify it pattern); try discriminate. intros _.
        unfold dispose, bind.
        destruct (_ =? 0); unfold ret; rewrite ?in_world_cerr_endl;
          match goal with
          | |- context [write E ?b ?st] =>
              pose proof (write_cases E b st) as Hc;
              destruct (write E b st) as [r1 st1];
              specialize (Hc r1 st1 eq_refl);
              destruct Hc; cbn
          end; rewrite <- ?app_assoc; eauto. }
      destruct (loop_body E pattern it doc_no s1) as [r1 st1].
      destruct (write E (getData it) s2) as [r2 st2].
      cbn [fst snd] in Hr, Hs, Hcerr. subst r2.
      destruct r1 as [d| | |]; cbn [void]; try discriminate.
      intros Hrun. destruct (IH d st1 st2 s2' Hs Hrun) as (s1' & Hl & Hso & lines & Hc).
      exists s1'. split; [exact Hl|]. split; [exact Hso|].
      destruct Hcerr as [l0 Hl0]. exists (l0 ++ lines).
      rewrite Hc, Hl0, app_assoc. reflexivity.
    + fold (admitted pattern arts). intros Hrun.
      destruct (loop_body_dropped E pattern it doc_no s1 Hadm) as [line Hb].
      rewrite Hb.
      destruct (IH doc_no _ s2 s2' (same_output_cerr s1 s2 line Hsame) Hrun)
        as (s1' & Hl & Hso & lines & Hc).
      exists s1'. split; [exact Hl|]. split; [exact Hso|].
      exists (line :: lines). rewrite Hc. cbn. now rewrite <- app_assoc.
Qed.

(** X21: when the iteration of the archive throws after some articles,
    while every write so far has returned, the run ends there: the batch
    files are those of the admitted articles read before the failure,
    whatever follows in the archive, the message of the exception is the
    last line of the error stream, and [main] returns 0. *)
Theorem X21_iteration_failure E args w input dir pattern
    (arts : list Article) e rest s2 :
  count_help args = 0%nat ->
  input_file args = Some input ->
  output_dir args = Some dir ->
  zim_File E input = inr (map inr arts ++ inl e :: rest) ->
  create_directory E dir = None ->
  disambig w !! language args = Some pattern ->
  write_all E (admitted pattern arts)
    (mkProc (BatchWriter_new dir (documents args) (zeroes args)) w)
  = (Ret tt, s2) ->
  fst (main E (inr args) w) = Ret 0 /\
  files (snd (main E (inr args) w)) = produced s2 /\
  last (cerr (snd (main E (inr args) w))) = Some (what e).
Proof.
  intros Hhelp Hin Hout Hzim Hmk Hlang Hrun.
  rewrite main_unfold, parse_unfold, Hhelp, Hin, Hout, Hlang. cbn [Nat.ltb
    Nat.leb count_of Nat.eqb orb]. rewrite Hout. cbv zeta.
  unfold try_block, bind, as_string, zim_File_new, fs_create_directory,
    in_world, ret, modify.
  rewrite Hin, Hzim, Hout, Hmk. cbn [world bw fst snd].
  rewrite disambig_index_spec. cbn [disambig set_dirs]. rewrite Hlang.
  match goal with
  | |- context [loop E pattern _ 0 ?s0] =>
      destruct (loop_until_failure E pattern arts e rest 0 s0
                  (mkProc (BatchWriter_new dir (documents args) (zeroes args)) w)
                  s2 ltac:(split; reflexivity) Hrun)
        as (s1' & -> & [Hb Hf] & _)
  end.
  unfold produced, BatchWriter_delete, reported. cbn.
  rewrite Hb, Hf. repeat split. apply last_snoc.
Qed.



End Failures.

Lemma X19_exit_leaves_no_output_witness :
  dirs (snd (main (H := libstdcxx) (Env_ok ten_articles) (inr args_help)
               World_init)) = dirs World_init /\
  files (snd (main (H := libstdcxx) (Env_ok ten_articles) (inr args_help)
                World_init)) = files World_init /\
  disambig (snd (main (H := libstdcxx) (Env_ok ten_articles) (inr args_help)
                   World_init)) = disambig World_init.
Proof.
  apply (X19_exit_leaves_no_output (H := libstdcxx) (Env_ok ten_articles)
           (inr args_help) World_init 0).
  reflexivity.
Defined.

Lemma X20_directory_failure_witness :
  let e := mkExn RuntimeError "filesystem error: cannot create directory" in
  let E := mkEnv "usage" (fun _ => inr ten_articles) (fun _ => Some e)
             (fun _ => None) in
  fst (main (H := libstdcxx) E (inr (args_of "en" 2 4)) World_init) = Ret 0 /\
  cerr (snd (main (H := libstdcxx) E (inr (args_of "en" 2 4)) World_init))
  = cerr World_init ++ [what e] /\
  dirs (snd (main (H := libstdcxx) E (inr (args_of "en" 2 4)) World_init))
  = dirs World_init /\
  files (snd (main (H := libstdcxx) E (inr (args_of "en" 2 4)) World_init))
  = files World_init.
Proof.
  cbv zeta.
  apply (X20_directory_failure (H := libstdcxx) _ (args_of "en" 2 4)
           World_init "wiki.zim" "out" ten_articles); reflexivity.
Defined.

Lemma X21_iteration_failure_witness :
  let e := mkExn RuntimeError "error reading cluster" in
  let arts := [budapest; mkArticle "B" "A" true false [x0b]] in
  let E := Env_ok (map inr arts ++ inl e :: ten_articles) in
  let run := main (H := libstdcxx) E (inr (args_of "en" 2 4)) World_init in
  fst run = Ret 0 /\
  files (snd run)
  = produced (snd (write_all (H := libstdcxx) E
                     (admitted "(disambiguation)" arts)
                     (mkProc (BatchWriter_new "out" 2 4) World_init))) /\
  last (cerr (snd run)) = Some (what e).
Proof.
  cbv zeta.
  apply (X21_iteration_failure (H := libstdcxx) _ (args_of "en" 2 4)
           World_init "wiki.zim" "out" "(disambiguation)"
           [budapest; mkArticle "B" "A" true false [x0b]]
           (mkExn RuntimeError "error reading cluster") ten_articles);
    reflexivity.
Defined.


Lemma X23_each_file_parses_alone_witness :
  exists made,
    produced (snd (write_all (H := libstdcxx) (Env_ok []) (take 5 ten_blobs)
                     (mkProc (BatchWriter_new "out" 2 4) World_init)))
    = files World_init ++ made /\
    forall (i : nat) f, made !! i = Some f ->
      parse_frames (file_bytes f)
      = Some (take (Z.to_nat 2) (drop (i * Z.to_nat 2) (take 5 ten_blobs))).
Proof.
  apply (X23_each_file_parses_alone (H := libstdcxx) (Env_ok []) "out" 2 4
           (take 5 ten_blobs) World_init).
  - lia.
  - repeat constructor.
  - vm_compute. reflexivity.
Defined.
